(** * archistripe: the Grok response viewers

    A shallow embedding of the four diagnostic scripts of the repository

      - [view_grok_responses.py]      (module [View])
      - [quick_grok_access.py]        (module [Quick])
      - [show_all_grok_responses.py]  (module [ShowAll])
      - [test_grok_access.py]         (module [TestAccess])

    and the properties of the document-inspection report generator that
    they implement.

    Python values are modelled as they reach the scripts: the payloads are
    parsed JSON ([json]: dictionaries keep their insertion order, text is a
    sequence of code points, numbers are the integers of the data model;
    numbers with a fraction or an exponent are outside the model).  The
    scripts run in a monad [M] that threads the console, the files written,
    the requests sent and the pending console input, and that propagates
    exceptions the way Python does. *)

From Stdlib Require Import ZArith NArith List String Ascii Lia Bool.
From Stdlib Require Import DecimalN DecimalPos DecimalFacts.
From stdpp Require Import base option list gmap.
Import ListNotations.

Local Open Scope Z_scope.

(** ** Text: a Python [str] is a sequence of code points *)

Abbreviation char := N (only parsing).
Abbreviation str := (list N) (only parsing).

Module Str.

(** Literals are written in UTF-8, as in the scripts, and decoded. *)
Fixpoint utf8_decode (bs : list N) : str :=
  match bs with
  | [] => []
  | b :: r =>
      if (b <? 128)%N then b :: utf8_decode r
      else if (b <? 224)%N then
        match r with
        | b1 :: r1 => ((b - 192) * 64 + (b1 - 128))%N :: utf8_decode r1
        | _ => []
        end
      else if (b <? 240)%N then
        match r with
        | b1 :: b2 :: r2 =>
            ((b - 224) * 4096 + (b1 - 128) * 64 + (b2 - 128))%N :: utf8_decode r2
        | _ => []
        end
      else
        match r with
        | b1 :: b2 :: b3 :: r3 =>
            ((b - 240) * 262144 + (b1 - 128) * 4096 + (b2 - 128) * 64 + (b3 - 128))%N
              :: utf8_decode r3
        | _ => []
        end
  end.

Definition lit (s : string) : str :=
  utf8_decode (map N_of_ascii (list_ascii_of_string s)).

Definition nl : str := [10%N].
Definition quote : str := [34%N].

(** A literal in which each apostrophe stands for a double quote. *)
Definition dq (s : string) : str :=
  map (fun c => if (c =? 39)%N then 34%N else c) (lit s).

(** [s * n] for a one-character string, as in ["=" * 80]. *)
Definition times (s : str) (n : nat) : str := concat (repeat s n).

(** [s[:n]] *)
Definition prefix (n : nat) (s : str) : str := firstn n s.

Fixpoint eqb (a b : str) : bool :=
  match a, b with
  | [], [] => true
  | x :: a', y :: b' => (x =? y)%N && eqb a' b'
  | _, _ => false
  end.

(** [s.replace(c, t)] for a one-character pattern [c]. *)
Definition replace_char (c : char) (t : str) (s : str) : str :=
  flat_map (fun x => if (x =? c)%N then t else [x]) s.

End Str.

Notation "« s »" := (Str.lit s) (at level 0, s at level 0, format "« s »").
Arguments Str.lit : simpl never.

(** ** Numbers: [str(n)], [f"{n:,}"], [n / 1000] and [f"{x:.1f}"] *)

Module Num.

Fixpoint uint_chars (d : Decimal.uint) : str :=
  match d with
  | Decimal.Nil => []
  | Decimal.D0 d => 48%N :: uint_chars d
  | Decimal.D1 d => 49%N :: uint_chars d
  | Decimal.D2 d => 50%N :: uint_chars d
  | Decimal.D3 d => 51%N :: uint_chars d
  | Decimal.D4 d => 52%N :: uint_chars d
  | Decimal.D5 d => 53%N :: uint_chars d
  | Decimal.D6 d => 54%N :: uint_chars d
  | Decimal.D7 d => 55%N :: uint_chars d
  | Decimal.D8 d => 56%N :: uint_chars d
  | Decimal.D9 d => 57%N :: uint_chars d
  end.

(** Decimal digits of a natural number, without leading zeros. *)
Definition nat_repr (n : N) : str := uint_chars (N.to_uint n).

(** [str(z)] for a Python [int]. *)
Definition int_repr (z : Z) : str :=
  match z with
  | Zneg p => 45%N :: nat_repr (Npos p)
  | _ => nat_repr (Z.to_N z)
  end.

(** Thousands separators, on the reversed digits. *)
Fixpoint group3 (rev_digits : str) : str :=
  match rev_digits with
  | a :: b :: c :: ((_ :: _) as more) => a :: b :: c :: 44%N :: group3 more
  | _ => rev_digits
  end.

(** [f"{z:,}"] for a Python [int]. *)
Definition int_commas (z : Z) : str :=
  let body := rev (group3 (rev (nat_repr (Z.to_N (Z.abs z))))) in
  if z <? 0 then 45%N :: body else body.

(** Nearest integer to [n / d] ([d > 0]), ties to the even one. *)
Definition round_half_even (n d : Z) : Z :=
  let q := n / d in
  let r := n mod d in
  if 2 * r <? d then q
  else if d <? 2 * r then q + 1
  else if Z.even q then q else q + 1.

(** A finite binary64 value [(-1)^neg * mant * 2^expo]. *)
Record float := Float { neg : bool; mant : Z; expo : Z }.

(** The binary64 nearest to [a / 1000] for [a > 0]: 53 significant bits,
    ties to even, as CPython's true division of integers rounds. *)
Definition div1000_pos (a : Z) : Z * Z :=
  let e0 := Z.log2 a - Z.log2 1000 - 52 in
  let scaled (e : Z) : Z * Z :=
    if 0 <=? e then (a, 1000 * 2 ^ e) else (a * 2 ^ (- e), 1000) in
  let e := if fst (scaled e0) <? snd (scaled e0) * 2 ^ 52 then e0 - 1 else e0 in
  (round_half_even (fst (scaled e)) (snd (scaled e)), e).

(** [a / 1000] for a Python [int] [a]; [None] is [OverflowError]
    (the quotient is beyond the largest binary64). *)
Definition div1000 (a : Z) : option float :=
  if a =? 0 then Some (Float false 0 0)
  else
    let '(m, e) := div1000_pos (Z.abs a) in
    if 0 <=? e then
      if 2 ^ 1024 <=? m * 2 ^ e then None else Some (Float (a <? 0) m e)
    else Some (Float (a <? 0) m e).

(** [f"{x:.1f}"]: the exact value of [x] rounded to one decimal, ties to
    even. *)
Definition tenths (x : float) : Z :=
  if 0 <=? expo x then 10 * mant x * 2 ^ expo x
  else round_half_even (10 * mant x) (2 ^ (- expo x)).

Definition format_1f (x : float) : str :=
  let t := tenths x in
  (if neg x then [45%N] else [])
    ++ nat_repr (Z.to_N (t / 10)) ++ [46%N] ++ nat_repr (Z.to_N (t mod 10)).

End Num.

(** ** Parsed JSON, and the [json] module of the standard library

    [json.dumps(v, indent=2)] and [json.loads(s)] as CPython implements them
    (ASCII-only output, two-space indentation, [','] and [': '] separators),
    on the values of the model.  Integers have no bound here: the limit on
    the digits of an integer that recent versions of Python put on the
    conversion from and to text is not modelled, nor is the limit on the
    depth of recursion. *)

#[warnings="-register-all"]
Inductive json :=
| JNull
| JBool (b : bool)
| JInt (z : Z)
| JStr (s : str)
| JList (items : list json)
| JDict (members : list (str * json)).

Module Json.

(** *** Dictionaries: insertion-ordered, one value per key *)

Fixpoint lookup (k : str) (d : list (str * json)) : option json :=
  match d with
  | [] => None
  | (k', v) :: d' => if Str.eqb k k' then Some v else lookup k d'
  end.

(** [d[k] = v]: an existing key keeps its place. *)
Fixpoint dict_set (k : str) (v : json) (d : list (str * json)) : list (str * json) :=
  match d with
  | [] => [(k, v)]
  | (k', v') :: d' =>
      if Str.eqb k k' then (k', v) :: d' else (k', v') :: dict_set k v d'
  end.

Definition dict_of_pairs (kvs : list (str * json)) : list (str * json) :=
  fold_left (fun d kv => dict_set (fst kv) (snd kv) d) kvs [].

(** *** Encoder *)

Definition hex_digit (d : N) : char :=
  if (d <? 10)%N then (48 + d)%N else (87 + d)%N.

Definition hex4 (n : N) : str :=
  [hex_digit (n / 4096); hex_digit ((n / 256) mod 16);
   hex_digit ((n / 16) mod 16); hex_digit (n mod 16)]%N.

Definition u_escape (n : N) : str := 92%N :: 117%N :: hex4 n.

Definition escape_char (c : char) : str :=
  if (c =? 34)%N then [92; 34]%N
  else if (c =? 92)%N then [92; 92]%N
  else if (c =? 10)%N then [92; 110]%N
  else if (c =? 13)%N then [92; 114]%N
  else if (c =? 9)%N then [92; 116]%N
  else if (c =? 8)%N then [92; 98]%N
  else if (c =? 12)%N then [92; 102]%N
  else if ((32 <=? c) && (c <=? 126))%N then [c]
  else if (c <? 65536)%N then u_escape c
  else
    let n := (c - 65536)%N in
    u_escape (55296 + (n / 1024) mod 1024)%N ++ u_escape (56320 + n mod 1024)%N.

Definition encode_string (s : str) : str :=
  34%N :: flat_map escape_char s ++ [34%N].

Definition newline_indent (level : nat) : str :=
  10%N :: repeat 32%N (2 * level).

Definition t_null : str := [110; 117; 108; 108]%N.
Definition t_true : str := [116; 114; 117; 101]%N.
Definition t_false : str := [102; 97; 108; 115; 101]%N.

Fixpoint encode (level : nat) (v : json) {struct v} : str :=
  match v with
  | JNull => t_null
  | JBool true => t_true
  | JBool false => t_false
  | JInt z => Num.int_repr z
  | JStr s => encode_string s
  | JList [] => [91; 93]%N
  | JList (x :: xs) =>
      91%N :: newline_indent (S level) ++ encode (S level) x
        ++ flat_map (fun y => 44%N :: newline_indent (S level) ++ encode (S level) y) xs
        ++ newline_indent level ++ [93%N]
  | JDict [] => [123; 125]%N
  | JDict ((k, x) :: kvs) =>
      123%N :: newline_indent (S level)
        ++ (encode_string k ++ [58; 32]%N ++ encode (S level) x)
        ++ flat_map (fun kv =>
                       match kv with
                       | (k', y) =>
                           44%N :: newline_indent (S level)
                             ++ (encode_string k' ++ [58; 32]%N ++ encode (S level) y)
                       end) kvs
        ++ newline_indent level ++ [125%N]
  end.

(** [json.dumps(v, indent=2)] *)
Definition dumps2 (v : json) : str := encode 0 v.

(** *** Decoder *)

(** Why a text is not decoded: [Malformed] is [json.JSONDecodeError];
    [NonInteger] marks a number with a fraction or an exponent (or [NaN],
    [Infinity]), which Python reads as a [float] and this model does not
    hold. *)
Inductive failure := Malformed | NonInteger.

Inductive scanned (A : Type) :=
| Scanned (a : A) (rest : str)
| Failed (why : failure).
Arguments Scanned {A} a rest.
Arguments Failed {A} why.

Definition scanned_map {A B} (f : A -> B) (r : scanned A) : scanned B :=
  match r with
  | Scanned a rest => Scanned (f a) rest
  | Failed why => Failed why
  end.

Definition is_ws (c : char) : bool :=
  ((c =? 32) || (c =? 9) || (c =? 10) || (c =? 13))%N.

Fixpoint skip_ws (inp : str) : str :=
  match inp with
  | c :: r => if is_ws c then skip_ws r else inp
  | [] => []
  end.

Definition is_digit (c : char) : bool := ((48 <=? c) && (c <=? 57))%N.

Definition hex_value (c : char) : option N :=
  if ((48 <=? c) && (c <=? 57))%N then Some (c - 48)%N
  else if ((97 <=? c) && (c <=? 102))%N then Some (c - 87)%N
  else if ((65 <=? c) && (c <=? 70))%N then Some (c - 55)%N
  else None.

Definition hex4_value (a b c d : char) : option N :=
  match hex_value a, hex_value b, hex_value c, hex_value d with
  | Some x, Some y, Some z, Some w => Some (x * 4096 + y * 256 + z * 16 + w)%N
  | _, _, _, _ => None
  end.

Definition is_high_surrogate (n : N) : bool := ((55296 <=? n) && (n <=? 56319))%N.
Definition is_low_surrogate (n : N) : bool := ((56320 <=? n) && (n <=? 57343))%N.
Definition join_surrogates (hi lo : N) : N :=
  (65536 + (hi - 55296) * 1024 + (lo - 56320))%N.

Definition simple_escape (e : char) : option char :=
  if (e =? 34)%N then Some 34%N
  else if (e =? 92)%N then Some 92%N
  else if (e =? 47)%N then Some 47%N
  else if (e =? 98)%N then Some 8%N
  else if (e =? 102)%N then Some 12%N
  else if (e =? 110)%N then Some 10%N
  else if (e =? 114)%N then Some 13%N
  else if (e =? 116)%N then Some 9%N
  else None.

(** The text of a string, from just after its opening quote. *)
Fixpoint scan_string (inp : str) : scanned str :=
  match inp with
  | [] => Failed Malformed
  | c :: r =>
      if (c =? 34)%N then Scanned [] r
      else if (c =? 92)%N then
        match r with
        | [] => Failed Malformed
        | e :: r1 =>
            if (e =? 117)%N then
              match r1 with
              | h1 :: h2 :: h3 :: h4 :: r2 =>
                  match hex4_value h1 h2 h3 h4 with
                  | None => Failed Malformed
                  | Some n =>
                      match r2 with
                      | x :: y :: g1 :: g2 :: g3 :: g4 :: r3 =>
                          if is_high_surrogate n && (x =? 92)%N && (y =? 117)%N then
                            match hex4_value g1 g2 g3 g4 with
                            | None => Failed Malformed
                            | Some n2 =>
                                if is_low_surrogate n2
                                then scanned_map (cons (join_surrogates n n2)) (scan_string r3)
                                else scanned_map (cons n) (scan_string r2)
                            end
                          else scanned_map (cons n) (scan_string r2)
                      | _ => scanned_map (cons n) (scan_string r2)
                      end
                  end
              | _ => Failed Malformed
              end
            else
              match simple_escape e with
              | Some ch => scanned_map (cons ch) (scan_string r1)
              | None => Failed Malformed
              end
        end
      else if (c <? 32)%N then Failed Malformed
      else scanned_map (cons c) (scan_string r)
  end.

Fixpoint strip_prefix (p inp : str) : option str :=
  match p, inp with
  | [], _ => Some inp
  | a :: p', b :: inp' => if (a =? b)%N then strip_prefix p' inp' else None
  | _ :: _, [] => None
  end.

Fixpoint take_digits (inp : str) : str * str :=
  match inp with
  | c :: r =>
      if is_digit c then (c :: fst (take_digits r), snd (take_digits r)) else ([], inp)
  | [] => ([], [])
  end.

Definition digit_cons (c : char) (u : Decimal.uint) : Decimal.uint :=
  if (c =? 48)%N then Decimal.D0 u
  else if (c =? 49)%N then Decimal.D1 u
  else if (c =? 50)%N then Decimal.D2 u
  else if (c =? 51)%N then Decimal.D3 u
  else if (c =? 52)%N then Decimal.D4 u
  else if (c =? 53)%N then Decimal.D5 u
  else if (c =? 54)%N then Decimal.D6 u
  else if (c =? 55)%N then Decimal.D7 u
  else if (c =? 56)%N then Decimal.D8 u
  else Decimal.D9 u.

Definition chars_uint (ds : str) : Decimal.uint := foldr digit_cons Decimal.Nil ds.

(** Does a fraction ([.d]) or an exponent ([e], optional sign, [d])
    follow the integer part? *)
Definition float_follows (rest : str) : bool :=
  match rest with
  | 46%N :: d :: _ => is_digit d
  | e :: more =>
      if ((e =? 101) || (e =? 69))%N then
        match more with
        | sg :: d :: _ =>
            is_digit sg || (((sg =? 43) || (sg =? 45))%N && is_digit d)
        | [d] => is_digit d
        | [] => false
        end
      else false
  | [] => false
  end.

Definition t_Infinity : str := [73; 110; 102; 105; 110; 105; 116; 121]%N.
Definition t_NaN : str := [78; 97; 78]%N.

(** The digits of a number, after its sign: a zero, or a digit string
    without leading zero; an integer unless a fraction or an exponent
    follows. *)
Definition scan_unsigned (negative : bool) (body : str) : scanned json :=
  match body with
  | [] => Failed Malformed
  | c :: r =>
      if is_digit c then
        let '(ds, rest) := if (c =? 48)%N then ([c], r)
                           else (c :: fst (take_digits r), snd (take_digits r)) in
        if float_follows rest then Failed NonInteger
        else
          let n := Z.of_N (N.of_uint (chars_uint ds)) in
          Scanned (JInt (if negative then - n else n)) rest
      else Failed Malformed
  end.

(** A number, with its optional minus sign. *)
Definition scan_number (inp : str) : scanned json :=
  let negative := match inp with c :: _ => (c =? 45)%N | [] => false end in
  scan_unsigned negative (if negative then tl inp else inp).

Definition scan_literal (inp : str) : scanned json :=
  match strip_prefix t_null inp, strip_prefix t_true inp, strip_prefix t_false inp with
  | Some r, _, _ => Scanned JNull r
  | _, Some r, _ => Scanned (JBool true) r
  | _, _, Some r => Scanned (JBool false) r
  | None, None, None =>
      match strip_prefix t_NaN inp, strip_prefix t_Infinity inp,
            strip_prefix (45%N :: t_Infinity) inp with
      | None, None, None => scan_number inp
      | _, _, _ => Failed NonInteger
      end
  end.

(** One JSON term; [fuel] bounds the nesting of calls. *)
Fixpoint scan_value (fuel : nat) (inp : str) {struct fuel} : scanned json :=
  match fuel with
  | O => Failed Malformed
  | S fuel' =>
      match inp with
      | [] => Failed Malformed
      | c :: r =>
          if (c =? 34)%N then scanned_map JStr (scan_string r)
          else if (c =? 123)%N then
            match skip_ws r with
            | c' :: r' =>
                if (c' =? 125)%N then Scanned (JDict []) r'
                else scanned_map (fun kvs => JDict (dict_of_pairs kvs))
                       (scan_members fuel' (c' :: r'))
            | [] => Failed Malformed
            end
          else if (c =? 91)%N then
            match skip_ws r with
            | c' :: r' =>
                if (c' =? 93)%N then Scanned (JList []) r'
                else scanned_map JList (scan_items fuel' (c' :: r'))
            | [] => Failed Malformed
            end
          else scan_literal inp
      end
  end

(** The elements of a non-empty array, up to and including its [']']. *)
with scan_items (fuel : nat) (inp : str) {struct fuel} : scanned (list json) :=
  match fuel with
  | O => Failed Malformed
  | S fuel' =>
      match scan_value fuel' inp with
      | Failed why => Failed why
      | Scanned v r =>
          match skip_ws r with
          | c :: r' =>
              if (c =? 93)%N then Scanned [v] r'
              else if (c =? 44)%N
              then scanned_map (cons v) (scan_items fuel' (skip_ws r'))
              else Failed Malformed
          | [] => Failed Malformed
          end
      end
  end

(** The members of a non-empty object, up to and including its ['}']. *)
with scan_members (fuel : nat) (inp : str) {struct fuel}
  : scanned (list (str * json)) :=
  match fuel with
  | O => Failed Malformed
  | S fuel' =>
      match inp with
      | q :: r =>
          if (q =? 34)%N then
            match scan_string r with
            | Failed why => Failed why
            | Scanned k r1 =>
                match skip_ws r1 with
                | colon :: r2 =>
                    if (colon =? 58)%N then
                      match scan_value fuel' (skip_ws r2) with
                      | Failed why => Failed why
                      | Scanned v r3 =>
                          match skip_ws r3 with
                          | c :: r4 =>
                              if (c =? 125)%N then Scanned [(k, v)] r4
                              else if (c =? 44)%N
                              then scanned_map (cons (k, v))
                                     (scan_members fuel' (skip_ws r4))
                              else Failed Malformed
                          | [] => Failed Malformed
                          end
                      end
                    else Failed Malformed
                | [] => Failed Malformed
                end
            end
          else Failed Malformed
      | [] => Failed Malformed
      end
  end.

Inductive decoded := Value (v : json) | Error (why : failure).

(** [json.loads(s)]: a text that starts with a byte order mark is
    refused. *)
Definition loads (s : str) : decoded :=
  if match s with c :: _ => (c =? 65279)%N | [] => false end then Error Malformed
  else
    match scan_value (S (length s)) (skip_ws s) with
    | Failed why => Error why
    | Scanned v rest =>
        match skip_ws rest with
        | [] => Value v
        | _ :: _ => Error Malformed
        end
    end.

End Json.

(** ** Python values at run time *)

(** The exceptions that the scripts can meet.  [RequestException] stands for
    every failure of [requests] (connection refused, [HTTPError] of
    [raise_for_status]); [JSONDecodeError] is a [ValueError]. *)
Inductive exn :=
| KeyError (key : json)
| TypeError
| AttributeError
| ValueError
| OverflowError
| IndexError
| OSError
| EOFError
| RequestException
| JSONDecodeError
| KeyboardInterrupt.

Inductive result (A : Type) :=
| Ok (a : A)
| Raise (e : exn).
Arguments Ok {A} a.
Arguments Raise {A} e.

Module Py.

(** [isinstance(e, Exception)]: [KeyboardInterrupt] derives from
    [BaseException] only. *)
Definition is_Exception (e : exn) : bool :=
  match e with KeyboardInterrupt => false | _ => true end.

Definition is_ValueError (e : exn) : bool :=
  match e with ValueError | JSONDecodeError => true | _ => false end.

Definition is_KeyboardInterrupt (e : exn) : bool :=
  match e with KeyboardInterrupt => true | _ => false end.

(** [bool(v)] *)
Definition truthy (v : json) : bool :=
  match v with
  | JNull => false
  | JBool b => b
  | JInt z => negb (z =? 0)
  | JStr s => match s with [] => false | _ => true end
  | JList l => match l with [] => false | _ => true end
  | JDict d => match d with [] => false | _ => true end
  end.

(** [v.get(k, default)]: only a [dict] has the method. *)
Definition get (v : json) (k : str) (default : json) : result json :=
  match v with
  | JDict d => Ok (match Json.lookup k d with Some x => x | None => default end)
  | _ => Raise AttributeError
  end.

(** [v[k]] for a string key [k]. *)
Definition getitem (v : json) (k : str) : result json :=
  match v with
  | JDict d =>
      match Json.lookup k d with Some x => Ok x | None => Raise (KeyError (JStr k)) end
  | _ => Raise TypeError
  end.

(** [len(v)] *)
Definition len (v : json) : result Z :=
  match v with
  | JStr s => Ok (Z.of_nat (length s))
  | JList l => Ok (Z.of_nat (length l))
  | JDict d => Ok (Z.of_nat (length d))
  | _ => Raise TypeError
  end.

(** [v[:n]].  Slicing a [dict] raises ([TypeError] up to Python 3.11,
    [KeyError] from 3.12 on: no handler of the scripts tells them apart). *)
Definition slice_to (n : nat) (v : json) : result json :=
  match v with
  | JStr s => Ok (JStr (Str.prefix n s))
  | JList l => Ok (JList (firstn n l))
  | _ => Raise TypeError
  end.


(** A [bool] is an [int]. *)
Definition as_int (v : json) : option Z :=
  match v with
  | JInt z => Some z
  | JBool b => Some (if b then 1 else 0)
  | _ => None
  end.

(** [f"{v:,}"] *)
Definition format_commas (v : json) : result str :=
  match v with
  | JStr _ => Raise ValueError
  | _ => match as_int v with
         | Some z => Ok (Num.int_commas z)
         | None => Raise TypeError
         end
  end.

(** [f"{v/1000:.1f}"] *)
Definition format_seconds (v : json) : result str :=
  match as_int v with
  | Some z =>
      match Num.div1000 z with
      | Some x => Ok (Num.format_1f x)
      | None => Raise OverflowError
      end
  | None => Raise TypeError
  end.

(** [v < 1000] *)
Definition lt_1000 (v : json) : result bool :=
  match as_int v with
  | Some z => Ok (z <? 1000)
  | None => Raise TypeError
  end.

(** [for x in v] *)
Definition iterate (v : json) : result (list json) :=
  match v with
  | JList l => Ok l
  | JDict d => Ok (map (fun kv => JStr (fst kv)) d)
  | JStr s => Ok (map (fun c => JStr [c]) s)
  | _ => Raise TypeError
  end.

End Py.

(** ** The interpreter and its libraries

    What the scripts take from the Python run time and cannot be read off
    their source: tables of Unicode, the wording of messages, the calendar,
    and the reading of numbers with a fraction. *)

Class Runtime := {
  (** [repr(v)] of a list or a dictionary, for f-strings and [print] *)
  repr_container : json -> str;
  (** [str(e)] of a caught exception *)
  exn_text : exn -> str;
  (** [s.strip()] and [s.lower()] *)
  strip : str -> str;
  lower : str -> str;
  (** [int(s)]; [None] is [ValueError] *)
  parse_int : str -> option Z;
  (** [datetime.fromisoformat(s).strftime('%Y-%m-%d %H:%M:%S')]; [None] is
      [ValueError] *)
  isoformat_strftime : str -> option str;
  (** [json.loads] and [json.dumps(_, indent=2)] on the text of a response,
      whose values may go beyond [json]; [None] is [JSONDecodeError] *)
  parsed_content : Type;
  content_loads : str -> option parsed_content;
  content_dumps2 : parsed_content -> str
}.

(** ** The world of one run *)

(** The answer to a GET: its status and what [.json()] gives
    ([None]: the body is not JSON). *)
Record reply := Reply { status_code : Z; body : option json }.

Record world := World {
  (** [requests.get(url)]; [None]: the request itself fails *)
  http_get : str -> option reply;
  (** [json.loads(subprocess.run(['curl', '-s', url], ...).stdout)];
      [None]: the output is not JSON *)
  curl_json : str -> option json;
  (** can [open(name, 'w')] succeed? *)
  writable : str -> bool
}.

Inductive event :=
| Print (line : str)      (* print(line) *)
| Prompt (text : str)     (* the prompt of input(text) *)
| Traceback (e : exn).    (* traceback.print_exc() *)

Inductive keyboard :=
| Line (text : str)
| CtrlC.

Record state := State {
  console : list event;
  files : gmap (list N) (list N);
  sent : list str;
  stdin : list keyboard
}.

Definition M (A : Type) : Type := state -> result A * state.

Definition ret {A} (a : A) : M A := fun st => (Ok a, st).

Definition raise {A} (e : exn) : M A := fun st => (Raise e, st).

Definition bind {A B} (m : M A) (k : A -> M B) : M B :=
  fun st =>
    match m st with
    | (Ok a, st') => k a st'
    | (Raise e, st') => (Raise e, st')
    end.

Notation "x <- m ;; k" := (bind m (fun x => k))
  (at level 20, m at level 99, k at level 200, only parsing).
Notation "m ;; k" := (bind m (fun _ => k))
  (at level 100, k at level 200, right associativity, only parsing).

Definition lift {A} (r : result A) : M A :=
  match r with Ok a => ret a | Raise e => raise e end.

(** [try: body  except <catches> as e: handler(e)] *)
Definition try_except {A} (body : M A) (catches : exn -> bool) (handler : exn -> M A)
  : M A :=
  fun st =>
    match body st with
    | (Raise e, st') => if catches e then handler e st' else (Raise e, st')
    | done => done
    end.

(** The state after the events [evs] have reached the console. *)
Definition say (evs : list event) (st : state) : state :=
  State (console st ++ evs) (files st) (sent st) (stdin st).

Definition emit (ev : event) : M unit := fun st => (Ok tt, say [ev] st).

Definition print (line : str) : M unit := emit (Print line).

Definition print_exc (e : exn) : M unit := emit (Traceback e).

(** [input(text)] *)
Definition input (text : str) : M str :=
  fun st =>
    let st' := State (console st ++ [Prompt text]) (files st) (sent st) (tl (stdin st)) in
    match stdin st with
    | Line s :: _ => (Ok s, st')
    | CtrlC :: _ => (Raise KeyboardInterrupt, st')
    | [] => (Raise EOFError, st')
    end.

(** [requests.get(url)] *)
Definition requests_get (w : world) (url : str) : M reply :=
  fun st =>
    let st' := State (console st) (files st) (sent st ++ [url]) (stdin st) in
    match http_get w url with
    | Some r => (Ok r, st')
    | None => (Raise RequestException, st')
    end.

(** [response.raise_for_status()] *)
Definition raise_for_status (r : reply) : M unit :=
  if (400 <=? status_code r) && (status_code r <? 600)
  then raise RequestException else ret tt.

(** [response.json()] *)
Definition reply_json (r : reply) : M json :=
  match body r with Some v => ret v | None => raise JSONDecodeError end.

(** [json.loads(subprocess.run(['curl', '-s', url], ...).stdout)] *)
Definition curl (w : world) (url : str) : M json :=
  fun st =>
    let st' := State (console st) (files st) (sent st ++ [url]) (stdin st) in
    match curl_json w url with
    | Some v => (Ok v, st')
    | None => (Raise JSONDecodeError, st')
    end.

(** [with open(name, 'w') as f: json.dump(v, f, indent=2)] *)
Definition json_dump_to (w : world) (name : str) (v : json) : M unit :=
  fun st =>
    if writable w name
    then (Ok tt, State (console st) (<[name := Json.dumps2 v]> (files st)) (sent st) (stdin st))
    else (Raise OSError, st).

Fixpoint for_each {A} (l : list A) (body : A -> M unit) : M unit :=
  match l with
  | [] => ret tt
  | x :: l' => body x ;; for_each l' body
  end.

(** [str(v)], as an f-string or [print] shows a value. *)
Definition to_str `{Runtime} (v : json) : str :=
  match v with
  | JStr s => s
  | JInt z => Num.int_repr z
  | JBool true => «"True"»
  | JBool false => «"False"»
  | JNull => «"None"»
  | _ => repr_container v
  end.

Definition result_bind {A B} (r : result A) (k : A -> result B) : result B :=
  match r with Ok a => k a | Raise e => Raise e end.

Definition of_option {A} (o : option A) (e : exn) : result A :=
  match o with Some a => Ok a | None => Raise e end.

(** [v is not None] *)
Definition is_not_None (v : json) : bool :=
  match v with JNull => false | _ => true end.

(** [v.replace('Z', '+00:00')]: a method of [str] only. *)
Definition replace_Z (v : json) : result str :=
  match v with
  | JStr s => Ok (Str.replace_char 90%N «"+00:00"» s)
  | _ => Raise AttributeError
  end.

(** [f"{gr.get('total_tokens', 0):,}"] *)
Definition tokens_field (gr : json) : result str :=
  result_bind (Py.get gr «"total_tokens"» (JInt 0)) Py.format_commas.

(** [f"{gr.get('response_time_ms', 0)/1000:.1f}"] *)
Definition seconds_field (gr : json) : result str :=
  result_bind (Py.get gr «"response_time_ms"» (JInt 0)) Py.format_seconds.

Inductive control := Continue | Break.


(** ** [view_grok_responses.py] *)

Module View.
Section Script.

Context `{Runtime}.
Variable w : world.

Definition API_BASE : str := «"http://localhost:5000"».

Definition format_tokens (tokens : json) : result str :=
  if Py.truthy tokens then Py.format_commas tokens else Ok «"N/A"».

Definition format_time (ms : json) : result str :=
  if negb (Py.truthy ms) then Ok «"N/A"»
  else
    result_bind (Py.lt_1000 ms) (fun small =>
      if small then Ok (to_str ms ++ «"ms"»)
      else result_bind (Py.format_seconds ms) (fun s => Ok (s ++ «"s"»))).

Definition get_documents : M json :=
  try_except
    (response <- requests_get w (API_BASE ++ «"/api/documents"») ;;
     raise_for_status response ;;
     reply_json response)
    Py.is_Exception
    (fun e => print («"Error fetching documents: "» ++ exn_text e) ;; ret (JList [])).

Definition get_grok_response (doc_id : json) : M json :=
  try_except
    (response <- requests_get w
        (API_BASE ++ «"/api/documents/"» ++ to_str doc_id ++ «"/grok-response"») ;;
     raise_for_status response ;;
     reply_json response)
    Py.is_Exception
    (fun e => print («"Error fetching Grok response: "» ++ exn_text e) ;; ret JNull).

(** The loop of [display_document_list]; [grok_docs] is the list built so
    far. *)
Fixpoint list_entries (documents grok_docs : list json) : M (list json) :=
  match documents with
  | [] => ret grok_docs
  | doc :: rest =>
      property_data <- lift (Py.get doc «"propertyData"» (JDict [])) ;;
      full <- lift (Py.get property_data «"fullGrokResponse"» JNull) ;;
      if is_not_None full then
        let grok_docs' := grok_docs ++ [doc] in
        name <- lift (Py.getitem doc «"originalName"») ;;
        print (Num.int_repr (Z.of_nat (length grok_docs')) ++ «". "» ++ to_str name) ;;
        status <- lift (Py.getitem doc «"status"») ;;
        print («"   Status: "» ++ to_str status) ;;
        uploaded <- lift (Py.getitem doc «"uploadedAt"») ;;
        iso <- lift (replace_Z uploaded) ;;
        shown <- lift (of_option (isoformat_strftime iso) ValueError) ;;
        print («"   Uploaded: "» ++ shown) ;;
        print [] ;;
        list_entries rest grok_docs'
      else list_entries rest grok_docs
  end.

Definition display_document_list (documents : json) : M (list json) :=
  print (Str.times «"="» 80) ;;
  print «"AVAILABLE DOCUMENTS WITH GROK RESPONSES"» ;;
  print (Str.times «"="» 80) ;;
  docs <- lift (Py.iterate documents) ;;
  grok_docs <- list_entries docs [] ;;
  match grok_docs with
  | [] =>
      print «"No documents with Grok responses found."» ;;
      print «"Upload a PDF document to generate Grok analysis data."» ;;
      ret []
  | _ => ret grok_docs
  end.

(** The notice after a cut excerpt. *)
Definition notice_line (n : Z) : str :=
  Str.nl ++ «"... (truncated, full content is "» ++ Num.int_commas n ++ «" chars)"».

Definition truncation_notice (raw_content : json) : M unit :=
  n <- lift (Py.len raw_content) ;;
  if 2000 <? n then print (notice_line n) else ret tt.

(** [json.loads(raw_content)]: text only. *)
Definition loads_content (raw_content : json) : result parsed_content :=
  match raw_content with
  | JStr s => of_option (content_loads s) JSONDecodeError
  | _ => Raise TypeError
  end.

(** The block under "RAW GROK RESPONSE CONTENT". *)
Definition display_raw_content (raw_content : json) : M unit :=
  if Py.truthy raw_content then
    try_except
      (parsed <- lift (loads_content raw_content) ;;
       print (Str.prefix 2000 (content_dumps2 parsed)) ;;
       truncation_notice raw_content)
      (fun _ => true)
      (fun _ =>
         cut <- lift (Py.slice_to 2000 raw_content) ;;
         print (to_str cut) ;;
         truncation_notice raw_content)
  else print «"No raw content available"».

Definition display_classification (gr : json) : M unit :=
  parsed_result <- lift (Py.get gr «"parsed_result"» (JDict [])) ;;
  classification <- lift (Py.get parsed_result «"documentClassification"» JNull) ;;
  if Py.truthy classification then
    pr <- lift (Py.getitem gr «"parsed_result"») ;;
    dc <- lift (Py.getitem pr «"documentClassification"») ;;
    print «"📋 DOCUMENT CLASSIFICATION:"» ;;
    type <- lift (Py.get dc «"documentType"» (JStr «"N/A"»)) ;;
    print («"   Type: "» ++ to_str type) ;;
    subtype <- lift (Py.get dc «"documentSubtype"» (JStr «"N/A"»)) ;;
    print («"   Subtype: "» ++ to_str subtype) ;;
    print []
  else ret tt.

Definition display_metrics (gr : json) : M unit :=
  print «"📊 PROCESSING METRICS:"» ;;
  model <- lift (Py.get gr «"model"» (JStr «"Unknown"»)) ;;
  print («"   Model: "» ++ to_str model) ;;
  prompt_tokens <- lift (result_bind (Py.get gr «"prompt_tokens"» JNull) format_tokens) ;;
  print («"   Prompt Tokens: "» ++ prompt_tokens) ;;
  completion_tokens <- lift (result_bind (Py.get gr «"completion_tokens"» JNull) format_tokens) ;;
  print («"   Completion Tokens: "» ++ completion_tokens) ;;
  total_tokens <- lift (result_bind (Py.get gr «"total_tokens"» JNull) format_tokens) ;;
  print («"   Total Tokens: "» ++ total_tokens) ;;
  time <- lift (result_bind (Py.get gr «"response_time_ms"» JNull) format_time) ;;
  print («"   Processing Time: "» ++ time) ;;
  size <- lift (result_bind (Py.get gr «"full_response_content"» (JStr [])) Py.len) ;;
  print («"   Response Size: "» ++ Num.int_commas size ++ «" characters"») ;;
  timestamp <- lift (Py.get gr «"timestamp"» (JStr «"N/A"»)) ;;
  print («"   Timestamp: "» ++ to_str timestamp) ;;
  print [].

Definition display_grok_response (grok_data : json) : M unit :=
  doc <- lift (Py.getitem grok_data «"document"») ;;
  gr <- lift (Py.getitem grok_data «"fullGrokResponse"») ;;
  print (Str.times «"="» 80) ;;
  name <- lift (Py.getitem doc «"originalName"») ;;
  print («"FULL GROK RESPONSE: "» ++ to_str name) ;;
  print (Str.times «"="» 80) ;;
  display_metrics gr ;;
  display_classification gr ;;
  print «"📄 RAW GROK RESPONSE CONTENT:"» ;;
  print (Str.times «"-"» 80) ;;
  raw_content <- lift (Py.get gr «"full_response_content"» (JStr [])) ;;
  display_raw_content raw_content ;;
  print (Str.times «"-"» 80) ;;
  print [].

(** [with open(filename, 'w') as f: json.dump(grok_data, f, indent=2)]
    of the selection loop, with the name built from the document id. *)
Definition save_response (selected_doc grok_data : json) : M unit :=
  id <- lift (Py.getitem selected_doc «"id"») ;;
  id8 <- lift (Py.slice_to 8 id) ;;
  let filename := «"grok_response_"» ++ to_str id8 ++ «".json"» in
  json_dump_to w filename grok_data ;;
  print («"Saved to "» ++ filename).

Definition selection_prompt (grok_docs : list json) : str :=
  Str.nl ++ «"Select document (1-"» ++ Num.int_repr (Z.of_nat (length grok_docs))
    ++ «") or 'q' to quit: "».

(** One turn of the [while True] loop of [main], with its [try]. *)
Definition iteration (grok_docs : list json) : M control :=
  try_except
    (typed <- input (selection_prompt grok_docs) ;;
     let choice := strip typed in
     if Str.eqb (lower choice) «"q"» then ret Break
     else
       doc_num <- lift (of_option (parse_int choice) ValueError) ;;
       if (1 <=? doc_num) && (doc_num <=? Z.of_nat (length grok_docs)) then
         selected_doc <- lift (of_option (grok_docs !! Z.to_nat (doc_num - 1)) IndexError) ;;
         id <- lift (Py.getitem selected_doc «"id"») ;;
         grok_data <- get_grok_response id ;;
         (if Py.truthy grok_data then
            display_grok_response grok_data ;;
            answer <- input (Str.nl ++ «"Save full response to file? (y/n): "») ;;
            let save := lower (strip answer) in
            if Str.eqb save «"y"» then save_response selected_doc grok_data
            else ret tt
          else print «"Failed to retrieve Grok response."») ;;
         ret Continue
       else
         print «"Invalid selection."» ;;
         ret Continue)
    (fun e => Py.is_ValueError e || Py.is_KeyboardInterrupt e)
    (fun _ => ret Break).

(** The [while True] loop; [None] when [fuel] turns do not reach its end. *)
Fixpoint selection_loop (fuel : nat) (grok_docs : list json) (st : state)
  : option (result unit * state) :=
  match fuel with
  | O => None
  | S fuel' =>
      match iteration grok_docs st with
      | (Ok Continue, st') => selection_loop fuel' grok_docs st'
      | (Ok Break, st') => Some (Ok tt, st')
      | (Raise e, st') => Some (Raise e, st')
      end
  end.

Definition main (fuel : nat) (st : state) : option (result unit * state) :=
  let start :=
    print «"Real Estate Document Analyzer - Grok Response Viewer"» ;;
    print (Str.times «"="» 60) ;;
    get_documents in
  match start st with
  | (Raise e, st1) => Some (Raise e, st1)
  | (Ok documents, st1) =>
      if negb (Py.truthy documents) then Some (print «"No documents found."» st1)
      else
        match display_document_list documents st1 with
        | (Raise e, st2) => Some (Raise e, st2)
        | (Ok [], st2) => Some (Ok tt, st2)
        | (Ok grok_docs, st2) =>
            match selection_loop fuel grok_docs st2 with
            | Some (Ok _, st3) => Some (print (Str.nl ++ «"Goodbye!"») st3)
            | stopped => stopped
            end
        end
  end.

End Script.
End View.

(** ** [quick_grok_access.py] *)

Module Quick.
Section Script.

Context `{Runtime}.
Variable w : world.

Definition show_classification (gr : json) : M unit :=
  parsed_result <- lift (Py.get gr «"parsed_result"» (JDict [])) ;;
  classification <- lift (Py.get parsed_result «"documentClassification"» JNull) ;;
  if Py.truthy classification then
    pr <- lift (Py.getitem gr «"parsed_result"») ;;
    dc <- lift (Py.getitem pr «"documentClassification"») ;;
    print (Str.nl ++ «"   📋 Document Classification:"») ;;
    type <- lift (Py.get dc «"documentType"» (JStr «"N/A"»)) ;;
    print («"   Type: "» ++ to_str type) ;;
    subtype <- lift (Py.get dc «"documentSubtype"» (JStr «"N/A"»)) ;;
    print («"   Subtype: "» ++ to_str subtype)
  else ret tt.

(** The first part of the raw response. *)
Definition show_excerpt (raw : json) : M unit :=
  if Py.truthy raw then
    print (Str.nl ++ «"   🔍 RAW GROK RESPONSE (first 300 chars):"») ;;
    cut <- lift (Py.slice_to 300 raw) ;;
    print («"   "» ++ to_str cut ++ «"..."»)
  else ret tt.

Definition show_record (gr : json) : M unit :=
  print «"   ✅ Full Grok Response Available!"» ;;
  model <- lift (Py.get gr «"model"» (JStr «"Unknown"»)) ;;
  print («"   Model: "» ++ to_str model) ;;
  tokens <- lift (tokens_field gr) ;;
  print («"   Tokens: "» ++ tokens) ;;
  time <- lift (seconds_field gr) ;;
  print («"   Processing Time: "» ++ time ++ «"s"») ;;
  raw <- lift (Py.get gr «"full_response_content"» (JStr [])) ;;
  show_excerpt raw ;;
  show_classification gr.




End Script.
End Quick.

(** ** [show_all_grok_responses.py] *)

Module ShowAll.
Section Script.

Context `{Runtime}.
Variable w : world.

Definition show_classification (gr : json) : M unit :=
  parsed_result <- lift (Py.get gr «"parsed_result"» (JDict [])) ;;
  classification <- lift (Py.get parsed_result «"documentClassification"» JNull) ;;
  if Py.truthy classification then
    pr <- lift (Py.getitem gr «"parsed_result"») ;;
    dc <- lift (Py.getitem pr «"documentClassification"») ;;
    type <- lift (Py.get dc «"documentType"» (JStr «"N/A"»)) ;;
    print («"   Type: "» ++ to_str type) ;;
    subtype <- lift (Py.get dc «"documentSubtype"» (JStr «"N/A"»)) ;;
    print («"   Subtype: "» ++ to_str subtype)
  else ret tt.

(** The sample of the raw response. *)
Definition show_sample (raw_content : json) : M unit :=
  n <- lift (Py.len raw_content) ;;
  print («"   Raw response: "» ++ Num.int_commas n ++ «" chars"») ;;
  cut <- lift (Py.slice_to 100 raw_content) ;;
  print («"   Sample: "» ++ to_str cut ++ «"..."»).

(** Each response goes to a file of its own. *)
Definition save_record (doc gr : json) : M unit :=
  id <- lift (Py.getitem doc «"id"») ;;
  id8 <- lift (Py.slice_to 8 id) ;;
  let filename := «"grok_response_"» ++ to_str id8 ++ «".json"» in
  json_dump_to w filename gr ;;
  print («"   Saved to: "» ++ filename).

(** The lines from the record: model, tokens, time, classification. *)
Definition show_fields (gr : json) : M unit :=
  print «"   ✅ FULL GROK RESPONSE AVAILABLE"» ;;
  model <- lift (Py.get gr «"model"» (JStr «"Unknown"»)) ;;
  print («"   Model: "» ++ to_str model) ;;
  tokens <- lift (tokens_field gr) ;;
  print («"   Tokens: "» ++ tokens) ;;
  time <- lift (seconds_field gr) ;;
  print («"   Time: "» ++ time ++ «"s"») ;;
  show_classification gr.

Definition show_record (doc gr : json) : M unit :=
  show_fields gr ;;
  raw_content <- lift (Py.get gr «"full_response_content"» (JStr [])) ;;
  if Py.truthy raw_content then
    show_sample raw_content ;;
    save_record doc gr
  else ret tt.


(** [doc.get('propertyData') and doc['propertyData'].get('rawExtractedData')] *)
Definition has_raw_data (doc : json) : M bool :=
  property_data <- lift (Py.get doc «"propertyData"» JNull) ;;
  if Py.truthy property_data then
    pd <- lift (Py.getitem doc «"propertyData"») ;;
    raw_data <- lift (Py.get pd «"rawExtractedData"» JNull) ;;
    ret (Py.truthy raw_data)
  else ret false.





End Script.
End ShowAll.

(** ** [test_grok_access.py] *)

Module TestAccess.
Section Script.

Context `{Runtime}.
Variable w : world.

(** [documents[0]] *)
Definition first (documents : json) : result json :=
  match documents with
  | JList l => of_option (head l) IndexError
  | JStr s => of_option (option_map (fun c => JStr [c]) (head s)) IndexError
  | JDict _ => Raise (KeyError (JInt 0))
  | _ => Raise TypeError
  end.

Definition show_classification (gr : json) : M unit :=
  parsed_result <- lift (Py.get gr «"parsed_result"» (JDict [])) ;;
  classification <- lift (Py.get parsed_result «"documentClassification"» JNull) ;;
  if Py.truthy classification then
    pr <- lift (Py.getitem gr «"parsed_result"») ;;
    dc <- lift (Py.getitem pr «"documentClassification"») ;;
    print (Str.nl ++ «"📋 Document Classification:"») ;;
    type <- lift (Py.get dc «"documentType"» (JStr «"N/A"»)) ;;
    print («"Type: "» ++ to_str type) ;;
    subtype <- lift (Py.get dc «"documentSubtype"» (JStr «"N/A"»)) ;;
    print («"Subtype: "» ++ to_str subtype)
  else ret tt.

(** The lines from the record: model, tokens, time, timestamp, the
    first 500 characters, classification. *)
Definition show_fields (gr : json) : M unit :=
  print (Str.nl ++ «"✅ FULL GROK RESPONSE FOUND!"») ;;
  print (Str.times «"="» 50) ;;
  model <- lift (Py.get gr «"model"» (JStr «"Unknown"»)) ;;
  print («"Model: "» ++ to_str model) ;;
  tokens <- lift (tokens_field gr) ;;
  print («"Total Tokens: "» ++ tokens) ;;
  time <- lift (seconds_field gr) ;;
  print («"Processing Time: "» ++ time ++ «"s"») ;;
  timestamp <- lift (Py.get gr «"timestamp"» (JStr «"N/A"»)) ;;
  print («"Timestamp: "» ++ to_str timestamp) ;;
  raw_content <- lift (Py.get gr «"full_response_content"» (JStr [])) ;;
  n <- lift (Py.len raw_content) ;;
  print (Str.nl ++ «"📄 Raw Response Length: "» ++ Num.int_commas n ++ «" characters"») ;;
  print «"First 500 characters:"» ;;
  print (Str.times «"-"» 50) ;;
  cut <- lift (Py.slice_to 500 raw_content) ;;
  print (to_str cut) ;;
  print (Str.times «"-"» 50) ;;
  show_classification gr.

Definition show_record (gr : json) : M unit :=
  show_fields gr ;;
  print (Str.nl ++ «"🎯 SUCCESS: Full Grok response is accessible!"») ;;
  json_dump_to w «"latest_grok_response.json"» gr ;;
  print «"Saved full response to 'latest_grok_response.json'"».

Definition keys (d : json) : json :=
  match d with
  | JDict kvs => JList (map (fun kv => JStr (fst kv)) kvs)
  | _ => JList []
  end.

Definition get_grok_response : M unit :=
  try_except
    (documents <- curl w «"http://localhost:5000/api/documents"» ;;
     if negb (Py.truthy documents) then print «"No documents found"»
     else
       doc <- lift (first documents) ;;
       name <- lift (Py.getitem doc «"originalName"») ;;
       print («"Document: "» ++ to_str name) ;;
       status <- lift (Py.getitem doc «"status"») ;;
       print («"Status: "» ++ to_str status) ;;
       id <- lift (Py.getitem doc «"id"») ;;
       print («"ID: "» ++ to_str id) ;;
       processed <- ShowAll.has_raw_data doc ;;
       if processed then
         pd <- lift (Py.getitem doc «"propertyData"») ;;
         raw_data <- lift (Py.getitem pd «"rawExtractedData"») ;;
         full <- lift (Py.get raw_data «"fullGrokResponse"» JNull) ;;
         if Py.truthy full then
           gr <- lift (Py.getitem raw_data «"fullGrokResponse"») ;;
           show_record gr
         else
           print «"❌ No fullGrokResponse found in raw data"» ;;
           print («"Available keys: "» ++ to_str (keys raw_data))
       else print «"❌ No property data or raw extracted data found"»)
    Py.is_Exception
    (fun e => print («"Error: "» ++ exn_text e) ;; print_exc e).

End Script.
End TestAccess.

(** ** A reference run time

    One run time to execute the scripts on concrete inputs: Python's
    behaviour on ASCII text, with the [json] module above for the text of a
    response. *)

Module Reference.

Definition is_space (c : char) : bool :=
  ((c =? 32) || ((9 <=? c) && (c <=? 13)))%N.

Fixpoint lstrip (s : str) : str :=
  match s with
  | c :: r => if is_space c then lstrip r else s
  | [] => []
  end.

Definition strip_ascii (s : str) : str := rev (lstrip (rev (lstrip s))).

Definition lower_ascii (s : str) : str :=
  map (fun c => if ((65 <=? c) && (c <=? 90))%N then (c + 32)%N else c) s.

Definition int_of_text (s : str) : option Z :=
  let s := strip_ascii s in
  let negative := match s with c :: _ => (c =? 45)%N | [] => false end in
  let signed := match s with c :: _ => ((c =? 45) || (c =? 43))%N | [] => false end in
  let digits := if signed then tl s else s in
  match digits with
  | [] => None
  | _ :: _ =>
      if forallb Json.is_digit digits then
        let n := Z.of_N (N.of_uint (Json.chars_uint digits)) in
        Some (if negative then - n else n)
      else None
  end.

Definition repr_str (s : str) : str :=
  let q := if existsb (N.eqb 39) s && negb (existsb (N.eqb 34) s) then 34%N else 39%N in
  let esc (c : char) : str :=
    if ((c =? q) || (c =? 92))%N then [92%N; c]
    else if (c =? 10)%N then [92; 110]%N
    else if (c =? 13)%N then [92; 114]%N
    else if (c =? 9)%N then [92; 116]%N
    else [c] in
  q :: flat_map esc s ++ [q].

Fixpoint repr (v : json) {struct v} : str :=
  match v with
  | JNull => «"None"»
  | JBool true => «"True"»
  | JBool false => «"False"»
  | JInt z => Num.int_repr z
  | JStr s => repr_str s
  | JList l =>
      91%N :: (fix items (l : list json) : str :=
                 match l with
                 | [] => []
                 | [x] => repr x
                 | x :: l' => repr x ++ [44; 32]%N ++ items l'
                 end) l ++ [93%N]
  | JDict d =>
      123%N :: (fix members (d : list (str * json)) : str :=
                  match d with
                  | [] => []
                  | [(k, x)] => repr_str k ++ [58; 32]%N ++ repr x
                  | (k, x) :: d' => repr_str k ++ [58; 32]%N ++ repr x ++ [44; 32]%N ++ members d'
                  end) d ++ [125%N]
  end.

Definition text_of_exn (e : exn) : str :=
  match e with
  | KeyError k => repr k
  | TypeError => «"unsupported operand type"»
  | AttributeError => «"object has no such attribute"»
  | ValueError => «"invalid value"»
  | OverflowError => «"integer division result too large for a float"»
  | IndexError => «"list index out of range"»
  | OSError => «"Permission denied"»
  | EOFError => «"EOF when reading a line"»
  | RequestException => «"request failed"»
  | JSONDecodeError => «"Expecting value"»
  | KeyboardInterrupt => []
  end.

(** [YYYY-MM-DD?HH:MM:SS...] shown as [YYYY-MM-DD HH:MM:SS]. *)
Definition show_datetime (s : str) : option str :=
  if (length s <? 19)%nat then None
  else Some (firstn 10 s ++ [32%N] ++ firstn 8 (skipn 11 s)).

Definition loads_text (s : str) : option json :=
  match Json.loads s with Json.Value v => Some v | Json.Error _ => None end.

Definition runtime : Runtime := {|
  repr_container := repr;
  exn_text := text_of_exn;
  strip := strip_ascii;
  lower := lower_ascii;
  parse_int := int_of_text;
  isoformat_strftime := show_datetime;
  parsed_content := json;
  content_loads := loads_text;
  content_dumps2 := Json.dumps2
|}.

(** A run starts with an empty console, no file, nothing sent. *)
Definition start (keys : list keyboard) : state := State [] ∅ [] keys.

(** The lines of a console, for reading. *)
Definition printed (st : state) : list str :=
  flat_map (fun ev => match ev with Print l => [l] | Prompt t => [t] | Traceback _ => [] end)
           (console st).

End Reference.

(** ** Vocabulary of the properties *)

(** [within R m]: running [m] takes a state to one related to it by [R]. *)
Definition within (R : state -> state -> Prop) {A} (m : M A) : Prop :=
  forall st, R st (snd (m st)).



(** Nothing is put back on the keyboard. *)
Definition stdin_shrinks (st st' : state) : Prop :=
  (length (stdin st') <= length (stdin st))%nat.

(** [raises_only P m]: an exception that leaves [m] satisfies [P]. *)
Definition raises_only (P : exn -> bool) {A} (m : M A) : Prop :=
  forall st, match fst (m st) with Raise e => P e = true | Ok _ => True end.








(** *** Records with absent fields

    A field of a record is optional: it is absent, or it has the type
    that the data model gives it. *)








(** What the renderings are expected to show, with the default of each
    absent field. *)
Module Expected.

Definition text (k default : str) (d : list (str * json)) : str :=
  match Json.lookup k d with Some (JStr s) => s | _ => default end.


Definition seconds (z : Z) : str :=
  match Num.div1000 z with Some x => Num.format_1f x | None => [] end.

(** A token count, or "N/A" when it is absent or zero. *)
Definition tokens (k : str) (d : list (str * json)) : str :=
  match Json.lookup k d with
  | Some (JInt z) => if z =? 0 then «"N/A"» else Num.int_commas z
  | _ => «"N/A"»
  end.

(** The time as [format_time] shows it, or "N/A" when absent or zero. *)
Definition time (d : list (str * json)) : str :=
  match Json.lookup «"response_time_ms"» d with
  | Some (JInt z) =>
      if z =? 0 then «"N/A"»
      else if z <? 1000 then Num.int_repr z ++ «"ms"»
      else seconds z ++ «"s"»
  | _ => «"N/A"»
  end.

(** The type and subtype to show, or nothing when there is no
    classification. *)
Definition classification (d : list (str * json)) : option (str * str) :=
  match Json.lookup «"parsed_result"» d with
  | Some (JDict pr) =>
      match Json.lookup «"documentClassification"» pr with
      | Some (JDict ((_ :: _) as dc)) =>
          Some (text «"documentType"» «"N/A"» dc, text «"documentSubtype"» «"N/A"» dc)
      | _ => None
      end
  | _ => None
  end.





End Expected.

(** *** Values that Python can hold

    The code points of a [str] are those of Unicode.  A text that
    [json.loads] built never has a high surrogate right before a low one:
    the decoder joins such a pair into one code point.  The keys of a
    [dict] are distinct. *)

Fixpoint wf_text (s : str) : bool :=
  match s with
  | [] => true
  | c :: r =>
      (c <=? 1114111)%N
      && negb (Json.is_high_surrogate c
               && match r with c' :: _ => Json.is_low_surrogate c' | [] => false end)
      && wf_text r
  end.

Fixpoint distinct (keys : list str) : bool :=
  match keys with
  | [] => true
  | k :: r => negb (existsb (Str.eqb k) r) && distinct r
  end.

Fixpoint wf_value (v : json) : bool :=
  match v with
  | JStr s => wf_text s
  | JList l => forallb wf_value l
  | JDict d =>
      distinct (map fst d)
      && forallb (fun kv => match kv with (k, x) => wf_text k && wf_value x end) d
  | _ => true
  end.

(** The elements of an array after the first, and the members of an
    object after the first, as the encoder writes them. *)
Definition encode_items (level : nat) (l : list json) : str :=
  flat_map (fun y => 44%N :: Json.newline_indent level ++ Json.encode level y) l.

Definition encode_member (level : nat) (member : str * json) : str :=
  match member with
  | (k, x) => Json.encode_string k ++ [58; 32]%N ++ Json.encode level x
  end.

Definition encode_members (level : nat) (l : list (str * json)) : str :=
  flat_map (fun kv =>
              match kv with
              | (k, x) =>
                  44%N :: Json.newline_indent level
                    ++ (Json.encode_string k ++ [58; 32]%N ++ Json.encode level x)
              end) l.

(** The calls that the decoder nests to read a value back. *)
Fixpoint size (v : json) : nat :=
  match v with
  | JList l => S (list_sum (map (fun x => S (size x)) l))
  | JDict d => S (list_sum (map (fun kv => match kv with (_, x) => S (size x) end) d))
  | _ => 1
  end.

(** Does the text start with the escape of a low surrogate (or with an
    escape that is not in hexadecimal)? *)
Definition low_escape_ahead (tail : str) : bool :=
  match tail with
  | x :: y :: g1 :: g2 :: g3 :: g4 :: _ =>
      (x =? 92)%N && (y =? 117)%N
      && match Json.hex4_value g1 g2 g3 g4 with
         | Some m => Json.is_low_surrogate m
         | None => true
         end
  | _ => false
  end.

(** How the text of an integer starts. *)
Inductive number_start : str -> Prop :=
| start_digit (c : N) (r : str) :
    (48 <= c <= 57)%N -> number_start (c :: r)
| start_minus (c : N) (r : str) :
    (48 <= c <= 57)%N -> number_start (45%N :: c :: r).

(** The characters that start the encoding of a value. *)
Definition value_start (c : N) : Prop :=
  (c = 110 \/ c = 116 \/ c = 102 \/ c = 34 \/ c = 91 \/ c = 123 \/ c = 45
   \/ 48 <= c <= 57)%N.

(** What can follow a term in the output of the encoder: nothing, a
    comma or a line break. *)
Definition ends_term (rest : str) : bool :=
  match rest with
  | [] => true
  | c :: _ => ((c =? 44) || (c =? 10))%N
  end.

(** The value is read back from its encoding, with fuel for its nesting
    and before the end of a term. *)
Definition read_back (v : json) : Prop :=
  forall (fuel level : nat) (rest : str),
    (size v <= fuel)%nat -> ends_term rest = true ->
    Json.scan_value fuel (Json.encode level v ++ rest) = Json.Scanned v rest.

(** A member of an object: a key fit for Python and a value that is read
    back. *)
Definition member_read_back (member : str * json) : Prop :=
  wf_text (fst member) = true /\ read_back (snd member).

(** What is read back from the file [name]. *)
Definition reread (name : str) (st : state) : option Json.decoded :=
  Json.loads <$> files st !! name.

(** *** Texts that json.loads is given

    A text as it comes out of a UTF-8 stream: code points of Unicode, none
    of them a surrogate. *)
Definition scalar (c : N) : bool :=
  (c <=? 1114111)%N && negb (Json.is_high_surrogate c) && negb (Json.is_low_surrogate c).

Definition clean (t : str) : bool := forallb scalar t.

(** The first character of a text, when it is a low surrogate. *)
Definition starts_low (s : str) : bool :=
  match s with c :: _ => Json.is_low_surrogate c | [] => false end.

(** What a string scanned from [inp] is like: fit for Python, followed by a
    clean text, and not starting with a low surrogate unless [inp] starts
    with the escape of one. *)
Definition built (inp s rest : str) : Prop :=
  wf_text s = true /\ clean rest = true
  /\ (low_escape_ahead inp = false -> starts_low s = false).

(** ** Sample data *)

Module Sample.

(** No server: every request fails, every file can be written. *)
Definition offline : world := World (fun _ => None) (fun _ => None) (fun _ => true).

(** A response record with a model name only. *)
Definition bare_record : json := JDict [(«"model"», JStr «"grok-2"»)].

(** A record with text that needs escapes, counts and a classification. *)
Definition full_record : json :=
  JDict [(«"model"», JStr «"grok-2"»);
         («"prompt_tokens"», JInt 1200);
         («"completion_tokens"», JInt 345);
         («"total_tokens"», JInt 1545);
         («"response_time_ms"», JInt 2500);
         («"timestamp"», JStr «"2025-01-02T03:04:05Z"»);
         («"full_response_content"», JStr (Str.dq "{'documentType': 'deed ✅ 📄'}" ++ Str.nl));
         («"parsed_result"»,
          JDict [(«"documentClassification"»,
                  JDict [(«"documentType"», JStr «"deed"»);
                         («"documentSubtype"», JStr «"warranty"»)]);
                 («"pages"», JList [JInt 1; JInt (-2); JNull; JBool true; JList []])])].




(** A document that view_grok_responses.py lists. *)
Definition viewable : json :=
  JDict [(«"id"», JStr «"doc-0004"»);
         («"originalName"», JStr «"title.pdf"»);
         («"status"», JStr «"completed"»);
         («"uploadedAt"», JStr «"2025-01-02T03:04:05.000Z"»);
         («"propertyData"», JDict [(«"fullGrokResponse"», bare_record)])].


End Sample.

(** * Properties *)

(** ** Text *)

Lemma str_eqb_eq (a b : str) : Str.eqb a b = true <-> a = b.
Proof.
  revert b. induction a as [|x a IH]; intros [|y b]; simpl; split; try easy.
  - intros [Hxy Hab]%andb_prop. apply N.eqb_eq in Hxy. apply IH in Hab. congruence.
  - intros [= -> ->]. rewrite N.eqb_refl. simpl. now apply IH.
Qed.

Lemma str_eqb_refl (a : str) : Str.eqb a a = true.
Proof. now apply str_eqb_eq. Qed.

Lemma str_eqb_neq (a b : str) : a <> b -> Str.eqb a b = false.
Proof.
  intros Hne. destruct (Str.eqb a b) eqn:E; [|reflexivity].
  now apply str_eqb_eq in E.
Qed.

(** ** Numbers *)

Lemma nat_repr_digit (d : Z) :
  0 <= d < 10 -> Num.nat_repr (Z.to_N d) = [(48 + Z.to_N d)%N].
Proof.
  intros Hd.
  assert (d = 0 \/ d = 1 \/ d = 2 \/ d = 3 \/ d = 4 \/ d = 5 \/ d = 6 \/ d = 7
          \/ d = 8 \/ d = 9) as Hcases by lia.
  repeat (destruct Hcases as [-> | Hcases]; [reflexivity|]). now subst.
Qed.

(** [f"{x:.1f}"] has a sign, an integer part and exactly one decimal. *)
Lemma format_1f_shape (x : Num.float) :
  exists (whole digit : N),
    (digit < 10)%N /\
    Num.format_1f x =
      (if Num.neg x then [45%N] else []) ++ Num.nat_repr whole ++ [46%N; (48 + digit)%N].
Proof.
  exists (Z.to_N (Num.tenths x / 10)), (Z.to_N (Num.tenths x mod 10)).
  assert (0 <= Num.tenths x mod 10 < 10) as Hd by (apply Z.mod_pos_bound; lia).
  split; [lia|].
  unfold Num.format_1f. now rewrite (nat_repr_digit _ Hd).
Qed.

(** ** The console *)





(** ** Processing time *)

(** C5, as amended.  In [view_grok_responses.py], [format_time] shows a
    non-zero time below 1000 in milliseconds and a time of 1000 or more in
    seconds, and shows "N/A" for zero and for an absent time.  The other
    three scripts show every time in seconds (zero when it is absent).  The
    seconds have exactly one decimal. *)
Theorem processing_time_rendering `{Runtime} (ms : Z) (gr : list (str * json)) :
  View.format_time (JInt ms) =
    (if ms =? 0 then Ok «"N/A"»
     else if ms <? 1000 then Ok (Num.int_repr ms ++ «"ms"»)
     else match Num.div1000 ms with
          | Some x => Ok (Num.format_1f x ++ «"s"»)
          | None => Raise OverflowError
          end)
  /\ View.format_time JNull = Ok «"N/A"»
  /\ seconds_field (JDict gr) =
       match Json.lookup «"response_time_ms"» gr with
       | None => Ok «"0.0"»
       | Some (JInt z) =>
           match Num.div1000 z with
           | Some x => Ok (Num.format_1f x)
           | None => Raise OverflowError
           end
       | Some other => Py.format_seconds other
       end
  /\ forall x : Num.float,
       exists (whole digit : N),
         (digit < 10)%N /\
         Num.format_1f x =
           (if Num.neg x then [45%N] else []) ++ Num.nat_repr whole ++ [46%N; (48 + digit)%N].
Proof.
  split; [|split; [|split]].
  - unfold View.format_time. simpl. destruct (ms =? 0); simpl; [reflexivity|].
    destruct (ms <? 1000); [reflexivity|].
    unfold Py.format_seconds. simpl. now destruct (Num.div1000 ms).
  - reflexivity.
  - unfold seconds_field. simpl.
    destruct (Json.lookup _ gr) as [[]|]; reflexivity.
  - apply format_1f_shape.
Qed.

(** C5 as stated fails: quick_grok_access.py shows 500 ms as "0.5s", in
    seconds although the time is below 1000, and the [format_time] of
    view_grok_responses.py shows a time of 0 as "N/A". *)
Lemma processing_time_not_milliseconds :
  (seconds_field (JDict [(«"response_time_ms"», JInt 500)]) = Ok «"0.5"»
   /\ «"0.5"» ++ «"s"» <> Num.int_repr 500 ++ «"ms"»)
  /\ (@View.format_time Reference.runtime (JInt 0) = Ok «"N/A"»
      /\ «"N/A"» <> Num.int_repr 0 ++ «"ms"»).
Proof. repeat split; first [reflexivity | discriminate]. Qed.

(** ** The excerpt of the raw response *)









(** ** The selection loop *)

(** C4, as amended.  A token that is a number outside the list prints
    "Invalid selection." and the loop prompts again.  A token that is
    neither a number nor the quit command makes [int] raise [ValueError],
    which the loop catches like an interrupt: the loop ends there, whatever
    input is still pending. *)
Theorem invalid_token_handling `{Runtime} (w : world) (grok_docs : list json)
    (typed : str) (rest : list keyboard) (st : state) :
  stdin st = Line typed :: rest ->
  lower (strip typed) <> «"q"» ->
  (forall n, parse_int (strip typed) = Some n ->
             n < 1 \/ Z.of_nat (length grok_docs) < n) ->
  let prompted :=
    State (console st ++ [Prompt (View.selection_prompt grok_docs)])
          (files st) (sent st) rest in
  View.iteration w grok_docs st =
    match parse_int (strip typed) with
    | None => (Ok Break, prompted)
    | Some _ => (Ok Continue, say [Print «"Invalid selection."»] prompted)
    end
  /\ (parse_int (strip typed) = None ->
      forall fuel, View.selection_loop w (S fuel) grok_docs st = Some (Ok tt, prompted)).
Proof.
  intros Hstdin Hquit Hrange prompted.
  assert (View.iteration w grok_docs st =
            match parse_int (strip typed) with
            | None => (Ok Break, prompted)
            | Some _ => (Ok Continue, say [Print «"Invalid selection."»] prompted)
            end) as Hturn.
  { unfold View.iteration, try_except, bind at 1, input. rewrite Hstdin.
    cbn beta iota. rewrite (str_eqb_neq _ _ Hquit).
    unfold bind at 1, lift at 1, of_option.
    destruct (parse_int (strip typed)) as [n|] eqn:Hint; cbn [ret raise].
    - destruct (Hrange n eq_refl) as [Hlow | Hhigh].
      + replace (1 <=? n) with false by (symmetry; apply Z.leb_gt; lia).
        reflexivity.
      + replace (n <=? Z.of_nat (length grok_docs)) with false
          by (symmetry; apply Z.leb_gt; lia).
        rewrite andb_false_r. reflexivity.
    - reflexivity. }
  split; [exact Hturn|].
  intros Hint fuel. cbn [View.selection_loop]. rewrite Hturn, Hint. reflexivity.
Qed.

Lemma invalid_token_handling_witness :
  stdin (Reference.start [Line «"abc"»; Line «"1"»]) = [Line «"abc"»; Line «"1"»]
  /\ @lower Reference.runtime (@strip Reference.runtime «"abc"») <> «"q"»
  /\ @parse_int Reference.runtime (@strip Reference.runtime «"abc"») = None
  /\ @View.selection_loop Reference.runtime Sample.offline 1 [JDict []]
       (Reference.start [Line «"abc"»; Line «"1"»]) =
     Some (Ok tt, State [Prompt (View.selection_prompt [JDict []])] ∅ [] [Line «"1"»]).
Proof.
  assert (@lower Reference.runtime (@strip Reference.runtime «"abc"») <> «"q"») as Hquit
    by discriminate.
  assert (forall n, @parse_int Reference.runtime (@strip Reference.runtime «"abc"») = Some n ->
                    n < 1 \/ Z.of_nat (length [JDict []]) < n) as Hrange
    by (intros n Hn; discriminate Hn).
  split; [reflexivity|]. split; [exact Hquit|]. split; [reflexivity|].
  exact (proj2 (invalid_token_handling (H := Reference.runtime) Sample.offline [JDict []]
                  «"abc"» [Line «"1"»] (Reference.start [Line «"abc"»; Line «"1"»])
                  eq_refl Hquit Hrange) eq_refl 0%nat).
Defined.

(** C4 as stated fails: after the token "abc" the loop is over, although a
    valid selection is waiting on the console; nothing prompts again. *)
Lemma invalid_token_ends_loop :
  @View.selection_loop Reference.runtime Sample.offline 10 [JDict []]
     (Reference.start [Line «"abc"»; Line «"1"»]) =
    Some (Ok tt, State [Prompt (View.selection_prompt [JDict []])] ∅ [] [Line «"1"»]).
Proof. reflexivity. Qed.


(** ** What a script can change, and what it can raise *)


Section Within.

Variable R : state -> state -> Prop.
Hypothesis R_refl : forall st, R st st.
Hypothesis R_trans : forall a b c, R a b -> R b c -> R a c.

Lemma within_ret {A} (a : A) : within R (ret a).
Proof. intros st. apply R_refl. Qed.

Lemma within_raise {A} (e : exn) : within R (@raise A e).
Proof. intros st. apply R_refl. Qed.

Lemma within_lift {A} (r : result A) : within R (lift r).
Proof. destruct r; [apply within_ret | apply within_raise]. Qed.

Lemma within_bind {A B} (m : M A) (k : A -> M B) :
  within R m -> (forall a, within R (k a)) -> within R (bind m k).
Proof.
  intros Hm Hk st. unfold bind. specialize (Hm st).
  destruct (m st) as [[a|e] st1]; simpl in *; [|exact Hm].
  eapply R_trans; [exact Hm | apply Hk].
Qed.

Lemma within_try_except {A} (body : M A) (catches : exn -> bool) (handler : exn -> M A) :
  within R body -> (forall e, within R (handler e)) ->
  within R (try_except body catches handler).
Proof.
  intros Hbody Hhandler st. unfold try_except. specialize (Hbody st).
  destruct (body st) as [[a|e] st1]; simpl in *; [exact Hbody|].
  destruct (catches e); [|exact Hbody].
  eapply R_trans; [exact Hbody | apply Hhandler].
Qed.

Lemma within_for_each {A} (l : list A) (body : A -> M unit) :
  (forall a, within R (body a)) -> within R (for_each l body).
Proof.
  intros Hbody. induction l as [|x l IH]; simpl.
  - apply within_ret.
  - apply within_bind; [apply Hbody | intros _; exact IH].
Qed.

End Within.














(** Breaks a script into its statements, for a property that each
    statement has and that sequencing keeps. *)
Ltac statements refl trans atoms :=
  repeat first
    [ apply (within_ret _ refl)
    | apply (within_raise _ refl)
    | apply (within_lift _ refl)
    | apply (within_bind _ trans); [|intros ?]
    | apply (within_try_except _ trans); [|intros ?]
    | apply (within_for_each _ refl trans); intros ?
    | solve [atoms]
    | match goal with
      | |- within _ (if ?b then _ else _) => destruct b
      | |- within _ (match ?x with _ => _ end) => destruct x
      end ].






(** ** The end of the selection loop *)

Lemma stdin_shrinks_refl st : stdin_shrinks st st.
Proof. unfold stdin_shrinks. lia. Qed.

Lemma stdin_shrinks_trans a b c : stdin_shrinks a b -> stdin_shrinks b c -> stdin_shrinks a c.
Proof. unfold stdin_shrinks. lia. Qed.

Lemma stdin_shrinks_emit ev : within stdin_shrinks (emit ev).
Proof. intros st. unfold stdin_shrinks. simpl. lia. Qed.

Lemma stdin_shrinks_input text : within stdin_shrinks (input text).
Proof.
  intros st. unfold input, stdin_shrinks.
  destruct (stdin st) as [|[]]; cbn [snd stdin tl length]; lia.
Qed.

Lemma stdin_shrinks_dump w name v : within stdin_shrinks (json_dump_to w name v).
Proof.
  intros st. unfold json_dump_to.
  destruct (writable w name); unfold stdin_shrinks; simpl; lia.
Qed.

Lemma stdin_shrinks_requests_get w url : within stdin_shrinks (requests_get w url).
Proof. intros st. unfold requests_get. destruct (http_get w url); unfold stdin_shrinks; simpl; lia. Qed.

Lemma stdin_shrinks_curl w url : within stdin_shrinks (curl w url).
Proof. intros st. unfold curl. destruct (curl_json w url); unfold stdin_shrinks; simpl; lia. Qed.

Ltac stdin_atoms :=
  first [ apply stdin_shrinks_emit | apply stdin_shrinks_input | apply stdin_shrinks_dump
        | apply stdin_shrinks_requests_get | apply stdin_shrinks_curl ].

Ltac keeps_stdin := statements stdin_shrinks_refl stdin_shrinks_trans stdin_atoms.

(** A statement that starts by reading a line uses up some input, unless
    the input is at its end and the exception of that passes through. *)
Lemma input_first_consumes {A} (text : str) (k : str -> M A) (catches : exn -> bool)
    (handler : exn -> M A) (st st' : state) (a : A) :
  (forall s, within stdin_shrinks (k s)) ->
  (forall e, within stdin_shrinks (handler e)) ->
  catches EOFError = false ->
  try_except (bind (input text) k) catches handler st = (Ok a, st') ->
  (length (stdin st') < length (stdin st))%nat.
Proof.
  intros Hk Hhandler Heof. unfold try_except, bind, input.
  destruct (stdin st) as [|[typed|] rest] eqn:Hstdin.
  - rewrite Heof. discriminate.
  - match goal with
    | |- context [k typed ?st1] =>
        pose proof (Hk typed st1) as Hrun; destruct (k typed st1) as [[x|e] st2]
    end.
    + intros [= _ <-]. unfold stdin_shrinks in Hrun. cbn in Hrun |- *. lia.
    + destruct (catches e); [|discriminate].
      intros Hcaught. pose proof (Hhandler e st2) as Hend.
      rewrite Hcaught in Hend. unfold stdin_shrinks in Hrun, Hend. cbn in Hrun, Hend |- *. lia.
  - destruct (catches KeyboardInterrupt); [|discriminate].
    intros Hcaught.
    match type of Hcaught with
    | handler _ ?st1 = _ => pose proof (Hhandler KeyboardInterrupt st1) as Hend
    end.
    rewrite Hcaught in Hend. unfold stdin_shrinks in Hend. cbn in Hend |- *. lia.
Qed.

Lemma iteration_consumes `{Runtime} (w : world) (grok_docs : list json)
    (st st' : state) (c : control) :
  View.iteration w grok_docs st = (Ok c, st') ->
  (length (stdin st') < length (stdin st))%nat.
Proof.
  unfold View.iteration. apply input_first_consumes; [| |reflexivity].
  - intros typed.
    unfold View.get_grok_response, View.display_grok_response, View.display_metrics,
      View.display_classification,
      View.display_raw_content, View.truncation_notice, View.save_response,
      raise_for_status, reply_json, print.
    keeps_stdin.
  - intros e. keeps_stdin.
Qed.

(** The [while True] loop is over after at most one turn for each line
    of input, and one more for the end of the input. *)
Lemma selection_loop_returns `{Runtime} (w : world) (grok_docs : list json) (fuel : nat) :
  forall st, (length (stdin st) < fuel)%nat ->
             exists r, View.selection_loop w fuel grok_docs st = Some r.
Proof.
  induction fuel as [|fuel IH]; intros st Hfuel; [lia|].
  cbn [View.selection_loop].
  destruct (View.iteration w grok_docs st) as [[[|]|e] st'] eqn:Hturn; eauto.
  apply IH. apply iteration_consumes in Hturn. lia.
Qed.

Lemma list_entries_stdin `{Runtime} (documents grok_docs : list json) :
  within stdin_shrinks (View.list_entries documents grok_docs).
Proof.
  revert grok_docs. induction documents as [|doc rest IH]; intros grok_docs;
    cbn [View.list_entries]; unfold print;
    repeat first [apply IH | progress keeps_stdin].
Qed.

(** view_grok_responses.py comes to an end on every input: with a result
    or with the exception that nothing caught. *)
Lemma main_returns `{Runtime} (w : world) (st : state) :
  exists r, View.main w (S (length (stdin st))) st = Some r.
Proof.
  unfold View.main.
  match goal with
  | |- context [match ?start st with _ => _ end] =>
      assert (within stdin_shrinks start) as Hstart
        by (unfold View.get_documents, raise_for_status, reply_json, print; keeps_stdin);
      specialize (Hstart st); destruct (start st) as [[documents|e] st1]; [|eauto]
  end.
  destruct (negb (Py.truthy documents)); [eauto|].
  assert (within stdin_shrinks (View.display_document_list documents)) as Hlist.
  { unfold View.display_document_list, print.
    repeat first [apply list_entries_stdin | progress keeps_stdin]. }
  specialize (Hlist st1).
  destruct (View.display_document_list documents st1) as [[[|doc grok_docs]|e] st2]; eauto.
  destruct (selection_loop_returns w (doc :: grok_docs) (S (length (stdin st))) st2)
    as [[[[]|e] st3] ->]; eauto.
  unfold stdin_shrinks in Hstart, Hlist. cbn [snd] in Hstart, Hlist. lia.
Qed.


(** ** Dictionaries *)





(** ** Documents that are not completed *)





(** ** Where the record is read from *)







(** ** Faults *)



Lemma raises_raise (P : exn -> bool) {A} (e : exn) : P e = true -> raises_only P (@raise A e).
Proof. intros HP st. exact HP. Qed.





Lemma raises_weaken (P Q : exn -> bool) {A} (m : M A) :
  (forall e, P e = true -> Q e = true) -> raises_only P m -> raises_only Q m.
Proof.
  intros HPQ Hm st. specialize (Hm st). destruct (fst (m st)); [exact I | now apply HPQ].
Qed.















(** ** The listing *)

Lemma bind_Ok_inv {A B} (m : M A) (k : A -> M B) (st st' : state) (b : B) :
  bind m k st = (Ok b, st') ->
  exists a st0, m st = (Ok a, st0) /\ k a st0 = (Ok b, st').
Proof.
  unfold bind. destruct (m st) as [[a|e] st0]; [|discriminate].
  intros Hk. now exists a, st0.
Qed.

Lemma lift_Ok_inv {A} (r : result A) (st st' : state) (a : A) :
  lift r st = (Ok a, st') -> r = Ok a /\ st' = st.
Proof. destruct r; simpl; unfold ret, raise; intros [= <- <-] || intros [=]; easy. Qed.

Lemma print_Ok_inv (line : str) (st st' : state) (u : unit) :
  print line st = (Ok u, st') -> st' = say [Print line] st.
Proof. now intros [= _ <-]. Qed.

(** Splits a run that ended well into the runs of its statements. *)
Ltac unbind H :=
  repeat (cbn beta in H;
          match type of H with
          | bind _ _ _ = (Ok _, _) =>
              let a := fresh "a" in
              let st0 := fresh "st" in
              let Hm := fresh "Hm" in
              apply bind_Ok_inv in H; destruct H as (a & st0 & Hm & H);
              first [ apply lift_Ok_inv in Hm; destruct Hm as [Hm ->]
                    | apply print_Ok_inv in Hm; subst st0
                    | idtac ]
          end).











(** ** Records with absent fields *)





















(** ** The JSON module: what is written is read back *)

(** *** Numbers *)

Lemma chars_uint_uint_chars (u : Decimal.uint) : Json.chars_uint (Num.uint_chars u) = u.
Proof. induction u; simpl; unfold Json.chars_uint in *; simpl; now f_equal. Qed.

Lemma uint_chars_digits (u : Decimal.uint) :
  forallb Json.is_digit (Num.uint_chars u) = true.
Proof. induction u; simpl; auto. Qed.

Lemma to_uint_normal (p : positive) : Decimal.unorm (Pos.to_uint p) = Pos.to_uint p.
Proof.
  rewrite <- (DecimalPos.Unsigned.to_of (Pos.to_uint p)).
  now rewrite DecimalPos.Unsigned.of_to.
Qed.

(** The digits of a positive number do not start with a zero. *)
Lemma to_uint_no_leading_zero (p : positive) (u : Decimal.uint) :
  Pos.to_uint p <> Decimal.D0 u.
Proof.
  intros Hzero.
  pose proof (to_uint_normal p) as Hnormal. rewrite Hzero in Hnormal.
  rewrite DecimalFacts.unorm_D0 in Hnormal.
  unfold Decimal.unorm in Hnormal.
  destruct (Decimal.nzhead u) eqn:Hhead;
    try (now apply (DecimalFacts.nzhead_nonzero u u); rewrite Hhead, Hnormal).
  injection Hnormal as <-.
  now apply (DecimalPos.Unsigned.to_uint_nonzero p).
Qed.

Lemma take_digits_app (ds rest : str) :
  forallb Json.is_digit ds = true ->
  match rest with c :: _ => Json.is_digit c = false | [] => True end ->
  Json.take_digits (ds ++ rest) = (ds, rest).
Proof.
  intros Hds Hrest. induction ds as [|c ds IH]; cbn [app Json.take_digits forallb] in *.
  - destruct rest as [|c rest]; [reflexivity|]. cbn [Json.take_digits]. now rewrite Hrest.
  - apply andb_prop in Hds as [Hc Hds]. rewrite Hc, (IH Hds). reflexivity.
Qed.

Lemma ends_term_no_digit (rest : str) :
  ends_term rest = true ->
  match rest with c :: _ => Json.is_digit c = false | [] => True end.
Proof.
  destruct rest as [|c rest]; [easy|]. cbn [ends_term].
  intros [Hc | Hc]%orb_prop; apply N.eqb_eq in Hc; now subst c.
Qed.

Lemma ends_term_no_float (rest : str) :
  ends_term rest = true -> Json.float_follows rest = false.
Proof.
  destruct rest as [|c rest]; [easy|]. simpl.
  intros [Hc | Hc]%orb_prop; apply N.eqb_eq in Hc; now subst c.
Qed.

Lemma scan_unsigned_nat (negative : bool) (n : N) (rest : str) :
  ends_term rest = true ->
  Json.scan_unsigned negative (Num.nat_repr n ++ rest) =
    Json.Scanned (JInt (if negative then - Z.of_N n else Z.of_N n)) rest.
Proof.
  intros Hrest. destruct n as [|p].
  - unfold Json.scan_unsigned. cbn. now rewrite (ends_term_no_float _ Hrest).
  - unfold Num.nat_repr. cbn [N.to_uint].
    pose proof (DecimalPos.Unsigned.of_to p) as Hback.
    pose proof (to_uint_no_leading_zero p) as Hlead.
    pose proof (DecimalPos.Unsigned.to_uint_nonnil p) as Hnonnil.
    destruct (Pos.to_uint p) as [|u|u|u|u|u|u|u|u|u|u] eqn:Hdigits;
      [easy | now destruct (Hlead u) | ..];
      unfold Json.scan_unsigned; cbn [Num.uint_chars app Json.is_digit N.leb N.eqb
                                       N.compare Pos.compare Pos.compare_cont andb Pos.eqb];
      rewrite (take_digits_app _ _ (uint_chars_digits u) (ends_term_no_digit _ Hrest));
      cbn [fst snd]; rewrite (ends_term_no_float _ Hrest);
      rewrite <- (chars_uint_uint_chars u) in Hback;
      unfold N.of_uint; unfold Json.chars_uint in *; cbn [foldr Json.digit_cons N.eqb Pos.eqb];
      rewrite Hback; reflexivity.
Qed.

Lemma uint_chars_start (u : Decimal.uint) :
  u <> Decimal.Nil -> exists c r, Num.uint_chars u = c :: r /\ (48 <= c <= 57)%N.
Proof. destruct u; [easy|..]; intros _; eexists _, _; (split; [reflexivity|lia]). Qed.

Lemma nat_repr_start (n : N) : exists c r, Num.nat_repr n = c :: r /\ (48 <= c <= 57)%N.
Proof.
  destruct n as [|p]; [exists 48%N, []; split; [reflexivity|lia]|].
  apply uint_chars_start, DecimalPos.Unsigned.to_uint_nonnil.
Qed.

Lemma int_repr_start (z : Z) (rest : str) : number_start (Num.int_repr z ++ rest).
Proof.
  destruct z as [|p|p]; unfold Num.int_repr.
  - destruct (nat_repr_start (Z.to_N 0)) as (c & r & -> & Hc). now constructor.
  - destruct (nat_repr_start (Z.to_N (Z.pos p))) as (c & r & -> & Hc). now constructor.
  - destruct (nat_repr_start (N.pos p)) as (c & r & -> & Hc).
    cbn [app]. now constructor.
Qed.

Lemma digit_cases (c : N) (P : N -> Prop) :
  (48 <= c <= 57)%N ->
  P 48%N -> P 49%N -> P 50%N -> P 51%N -> P 52%N -> P 53%N -> P 54%N -> P 55%N ->
  P 56%N -> P 57%N -> P c.
Proof.
  intros Hc.
  assert (c = 48 \/ c = 49 \/ c = 50 \/ c = 51 \/ c = 52 \/ c = 53 \/ c = 54 \/ c = 55
          \/ c = 56 \/ c = 57)%N as Hcases by lia.
  repeat (destruct Hcases as [-> | Hcases]; [intros; assumption|]). subst c. intros; assumption.
Qed.

(** A text that starts like a number is scanned as a number. *)
Lemma scan_value_number_start (fuel : nat) (s : str) :
  number_start s -> Json.scan_value (S fuel) s = Json.scan_number s.
Proof.
  intros [c r Hc | c r Hc].
  - apply (digit_cases c (fun c => Json.scan_value (S fuel) (c :: r) = Json.scan_number (c :: r))
             Hc); reflexivity.
  - apply (digit_cases c (fun c => Json.scan_value (S fuel) (45%N :: c :: r) =
                                     Json.scan_number (45%N :: c :: r)) Hc); reflexivity.
Qed.

Lemma nat_repr_not_negative (n : N) (rest : str) :
  match Num.nat_repr n ++ rest with c :: _ => (c =? 45)%N | [] => false end = false.
Proof.
  destruct (nat_repr_start n) as (c & r & -> & Hc). cbn [app]. apply N.eqb_neq. lia.
Qed.

Lemma scan_number_int (z : Z) (rest : str) :
  ends_term rest = true ->
  Json.scan_number (Num.int_repr z ++ rest) = Json.Scanned (JInt z) rest.
Proof.
  intros Hrest. unfold Json.scan_number.
  destruct z as [|p|p]; unfold Num.int_repr.
  - rewrite nat_repr_not_negative, (scan_unsigned_nat false _ _ Hrest). reflexivity.
  - rewrite nat_repr_not_negative, (scan_unsigned_nat false _ _ Hrest). reflexivity.
  - cbn [app tl]. rewrite N.eqb_refl, (scan_unsigned_nat true _ _ Hrest). reflexivity.
Qed.

Lemma scan_value_int (fuel : nat) (z : Z) (rest : str) :
  ends_term rest = true ->
  Json.scan_value (S fuel) (Num.int_repr z ++ rest) = Json.Scanned (JInt z) rest.
Proof.
  intros Hrest.
  rewrite (scan_value_number_start _ _ (int_repr_start z rest)).
  now apply scan_number_int.
Qed.

(** *** Strings *)

Lemma hex_value_hex_digit (d : N) : (d < 16)%N -> Json.hex_value (Json.hex_digit d) = Some d.
Proof.
  intros Hd.
  assert (d = 0 \/ d = 1 \/ d = 2 \/ d = 3 \/ d = 4 \/ d = 5 \/ d = 6 \/ d = 7 \/ d = 8
          \/ d = 9 \/ d = 10 \/ d = 11 \/ d = 12 \/ d = 13 \/ d = 14 \/ d = 15)%N
    as Hcases by lia.
  repeat (destruct Hcases as [-> | Hcases]; [reflexivity|]). now subst d.
Qed.

Lemma hex4_digits (n : N) :
  (n < 65536)%N ->
  (n / 4096 * 4096 + (n / 256) mod 16 * 256 + (n / 16) mod 16 * 16 + n mod 16 = n)%N.
Proof.
  intros Hn.
  pose proof (N.div_mod' n 16) as H1.
  pose proof (N.div_mod' (n / 16) 16) as H2.
  pose proof (N.div_mod' (n / 256) 16) as H3.
  rewrite N.Div0.div_div in H2. change (16 * 16)%N with 256%N in H2.
  rewrite N.Div0.div_div in H3. change (256 * 16)%N with 4096%N in H3.
  assert (n / 4096 < 16)%N by (apply N.Div0.div_lt_upper_bound; lia).
  assert (n / 4096 mod 16 = n / 4096)%N as H4 by (apply N.mod_small; lia).
  lia.
Qed.

Lemma hex4_value_hex4 (n : N) :
  (n < 65536)%N ->
  Json.hex4_value (Json.hex_digit (n / 4096)) (Json.hex_digit ((n / 256) mod 16))
                  (Json.hex_digit ((n / 16) mod 16)) (Json.hex_digit (n mod 16)) = Some n.
Proof.
  intros Hn. unfold Json.hex4_value.
  rewrite !hex_value_hex_digit;
    try (apply N.mod_lt; lia); try (apply N.Div0.div_lt_upper_bound; lia).
  now rewrite (hex4_digits n Hn).
Qed.

(** One step of the scanner, by the kind of character it meets. *)
Lemma scan_string_plain (c : N) (r : str) :
  (c =? 34)%N = false -> (c =? 92)%N = false -> (c <? 32)%N = false ->
  Json.scan_string (c :: r) = Json.scanned_map (cons c) (Json.scan_string r).
Proof. intros H34 H92 H32. cbn [Json.scan_string]. now rewrite H34, H92, H32. Qed.

Lemma scan_string_simple (e ch : N) (r : str) :
  (e =? 117)%N = false -> Json.simple_escape e = Some ch ->
  Json.scan_string (92%N :: e :: r) = Json.scanned_map (cons ch) (Json.scan_string r).
Proof.
  intros Hu Hsimple. cbn [Json.scan_string].
  change (92 =? 34)%N with false. change (92 =? 92)%N with true. cbn iota.
  now rewrite Hu, Hsimple.
Qed.

Lemma scan_string_hex (n : N) (h1 h2 h3 h4 : N) (tail : str) :
  Json.hex4_value h1 h2 h3 h4 = Some n ->
  Json.is_high_surrogate n && low_escape_ahead tail = false ->
  Json.scan_string (92%N :: 117%N :: h1 :: h2 :: h3 :: h4 :: tail) =
    Json.scanned_map (cons n) (Json.scan_string tail).
Proof.
  intros Hhex Hpair. cbn [Json.scan_string].
  change (92 =? 34)%N with false. change (92 =? 92)%N with true.
  change (117 =? 117)%N with true. cbn iota. rewrite Hhex.
  destruct tail as [|x [|y [|g1 [|g2 [|g3 [|g4 r3]]]]]]; try reflexivity.
  unfold low_escape_ahead in Hpair.
  destruct (Json.is_high_surrogate n); [|reflexivity].
  destruct (x =? 92)%N; [|reflexivity]. destruct (y =? 117)%N; [|reflexivity].
  cbn [andb] in *. destruct (Json.hex4_value g1 g2 g3 g4); [|discriminate].
  now rewrite Hpair.
Qed.

Lemma scan_string_pair (hi lo : N) (h1 h2 h3 h4 g1 g2 g3 g4 : N) (tail : str) :
  Json.hex4_value h1 h2 h3 h4 = Some hi ->
  Json.hex4_value g1 g2 g3 g4 = Some lo ->
  Json.is_high_surrogate hi = true ->
  Json.is_low_surrogate lo = true ->
  Json.scan_string (92%N :: 117%N :: h1 :: h2 :: h3 :: h4
                      :: 92%N :: 117%N :: g1 :: g2 :: g3 :: g4 :: tail) =
    Json.scanned_map (cons (Json.join_surrogates hi lo)) (Json.scan_string tail).
Proof.
  intros Hhi Hlo Hhigh Hlow. cbn [Json.scan_string].
  change (92 =? 34)%N with false. change (92 =? 92)%N with true.
  change (117 =? 117)%N with true. cbn iota.
  now rewrite Hhi, Hhigh, Hlo, Hlow.
Qed.

Lemma surrogates_of_join (n : N) :
  (n < 1048576)%N ->
  let hi := (55296 + (n / 1024) mod 1024)%N in
  let lo := (56320 + n mod 1024)%N in
  (hi < 65536)%N /\ (lo < 65536)%N
  /\ Json.is_high_surrogate hi = true /\ Json.is_low_surrogate lo = true
  /\ Json.join_surrogates hi lo = (65536 + n)%N.
Proof.
  intros Hn hi lo.
  assert ((n / 1024) mod 1024 < 1024)%N as Hhi by (apply N.mod_lt; lia).
  assert (n mod 1024 < 1024)%N as Hlo by (apply N.mod_lt; lia).
  assert (n / 1024 < 1024)%N as Hq by (apply N.Div0.div_lt_upper_bound; lia).
  assert ((n / 1024) mod 1024 = n / 1024)%N as Hsmall by (apply N.mod_small; lia).
  pose proof (N.div_mod' n 1024) as Hdiv.
  unfold Json.is_high_surrogate, Json.is_low_surrogate, Json.join_surrogates.
  subst hi lo.
  rewrite Hsmall in *. clear Hsmall Hhi.
  generalize dependent (n / 1024)%N. generalize dependent (n mod 1024)%N.
  intros r Hr q Hq Hdiv.
  repeat split; try lia.
  - apply andb_true_intro. split; apply N.leb_le; lia.
  - apply andb_true_intro. split; apply N.leb_le; lia.
Qed.

(** The escape of a character is read back as the character. *)
Lemma scan_escape_char (c : N) (tail : str) :
  (c <= 1114111)%N ->
  Json.is_high_surrogate c && low_escape_ahead tail = false ->
  Json.scan_string (Json.escape_char c ++ tail) =
    Json.scanned_map (cons c) (Json.scan_string tail).
Proof.
  intros Hmax Hpair. unfold Json.escape_char.
  destruct (N.eqb_spec c 34) as [->|H34]; [now apply scan_string_simple|].
  destruct (N.eqb_spec c 92) as [->|H92]; [now apply scan_string_simple|].
  destruct (N.eqb_spec c 10) as [->|H10]; [now apply scan_string_simple|].
  destruct (N.eqb_spec c 13) as [->|H13]; [now apply scan_string_simple|].
  destruct (N.eqb_spec c 9) as [->|H9]; [now apply scan_string_simple|].
  destruct (N.eqb_spec c 8) as [->|H8]; [now apply scan_string_simple|].
  destruct (N.eqb_spec c 12) as [->|H12]; [now apply scan_string_simple|].
  destruct ((32 <=? c) && (c <=? 126))%N eqn:Hprint.
  - apply andb_prop in Hprint as [Hlow _]. apply N.leb_le in Hlow.
    apply scan_string_plain; [now apply N.eqb_neq | now apply N.eqb_neq | apply N.ltb_ge; lia].
  - destruct (c <? 65536)%N eqn:Hbmp.
    + apply N.ltb_lt in Hbmp. unfold Json.u_escape, Json.hex4. cbn [app].
      apply scan_string_hex; [now apply hex4_value_hex4 | exact Hpair].
    + apply N.ltb_ge in Hbmp. cbv zeta.
      destruct (surrogates_of_join (c - 65536) ltac:(lia))
        as (Hhi & Hlo & Hhigh & Hlow & Hjoin).
      unfold Json.u_escape, Json.hex4. cbn [app].
      rewrite (scan_string_pair _ _ _ _ _ _ _ _ _ _ tail
                 (hex4_value_hex4 _ Hhi) (hex4_value_hex4 _ Hlo) Hhigh Hlow).
      rewrite Hjoin. replace (65536 + (c - 65536))%N with c by lia. reflexivity.
Qed.

Lemma low_escape_ahead_first (x : N) (r : str) :
  (x =? 92)%N = false -> low_escape_ahead (x :: r) = false.
Proof.
  intros Hx. destruct r as [|y [|g1 [|g2 [|g3 [|g4 r]]]]]; try reflexivity.
  unfold low_escape_ahead. now rewrite Hx.
Qed.

Lemma low_escape_ahead_second (x y : N) (r : str) :
  (y =? 117)%N = false -> low_escape_ahead (x :: y :: r) = false.
Proof.
  intros Hy. destruct r as [|g1 [|g2 [|g3 [|g4 r]]]]; try reflexivity.
  unfold low_escape_ahead. now rewrite Hy, andb_false_r.
Qed.

Lemma low_escape_ahead_hex (n : N) (h1 h2 h3 h4 : N) (r : str) :
  Json.hex4_value h1 h2 h3 h4 = Some n ->
  low_escape_ahead (92%N :: 117%N :: h1 :: h2 :: h3 :: h4 :: r) = Json.is_low_surrogate n.
Proof. intros Hhex. unfold low_escape_ahead. now rewrite Hhex. Qed.

(** After the escape of a character that is not a low surrogate, no
    escape of a low surrogate is ahead. *)
Lemma escape_char_not_low (c : N) (tail : str) :
  (c <= 1114111)%N -> Json.is_low_surrogate c = false ->
  low_escape_ahead (Json.escape_char c ++ tail) = false.
Proof.
  intros Hmax Hlow. unfold Json.escape_char.
  destruct (N.eqb_spec c 34) as [->|H34]; [now apply low_escape_ahead_second|].
  destruct (N.eqb_spec c 92) as [->|H92]; [now apply low_escape_ahead_second|].
  destruct (N.eqb_spec c 10) as [->|H10]; [now apply low_escape_ahead_second|].
  destruct (N.eqb_spec c 13) as [->|H13]; [now apply low_escape_ahead_second|].
  destruct (N.eqb_spec c 9) as [->|H9]; [now apply low_escape_ahead_second|].
  destruct (N.eqb_spec c 8) as [->|H8]; [now apply low_escape_ahead_second|].
  destruct (N.eqb_spec c 12) as [->|H12]; [now apply low_escape_ahead_second|].
  destruct ((32 <=? c) && (c <=? 126))%N eqn:Hprint.
  - apply low_escape_ahead_first. now apply N.eqb_neq.
  - destruct (c <? 65536)%N eqn:Hbmp.
    + apply N.ltb_lt in Hbmp. unfold Json.u_escape, Json.hex4. cbn [app].
      now rewrite (low_escape_ahead_hex c) by now apply hex4_value_hex4.
    + apply N.ltb_ge in Hbmp. cbv zeta.
      destruct (surrogates_of_join (c - 65536) ltac:(lia))
        as (Hhi & Hlo & Hhigh & _ & _).
      unfold Json.u_escape, Json.hex4. cbn [app].
      rewrite (low_escape_ahead_hex _ _ _ _ _ _ (hex4_value_hex4 _ Hhi)).
      unfold Json.is_high_surrogate, Json.is_low_surrogate in *.
      apply andb_prop in Hhigh as [H1 H2]. apply N.leb_le in H1, H2.
      apply andb_false_intro1, N.leb_gt. lia.
Qed.

(** The text of a string is read back from its encoding. *)
Lemma scan_string_text (s rest : str) :
  wf_text s = true ->
  Json.scan_string (flat_map Json.escape_char s ++ 34%N :: rest) = Json.Scanned s rest.
Proof.
  induction s as [|c s IH]; intros Hwf; [reflexivity|].
  cbn [wf_text] in Hwf.
  apply andb_prop in Hwf as [[Hmax Hpair]%andb_prop Hwf].
  apply N.leb_le in Hmax. apply negb_true_iff in Hpair.
  cbn [flat_map]. rewrite <- app_assoc.
  rewrite scan_escape_char, (IH Hwf); [reflexivity | exact Hmax |].
  destruct (Json.is_high_surrogate c); [|reflexivity]. cbn [andb] in *.
  destruct s as [|c' s]; [now apply low_escape_ahead_first|].
  cbn [flat_map]. rewrite <- app_assoc.
  cbn [wf_text] in Hwf. apply andb_prop in Hwf as [[Hmax' _]%andb_prop _].
  apply N.leb_le in Hmax'. now apply escape_char_not_low.
Qed.

(** *** Arrays and objects *)

(** Induction on a value, with the property at hand for the values that
    it holds. *)
Lemma json_nested_ind (P : json -> Prop) :
  P JNull -> (forall b, P (JBool b)) -> (forall z, P (JInt z)) -> (forall s, P (JStr s)) ->
  (forall l, Forall P l -> P (JList l)) ->
  (forall d, Forall (fun kv => P (snd kv)) d -> P (JDict d)) ->
  forall v, P v.
Proof.
  intros Hnull Hbool Hint Hstr Hlist Hdict.
  fix self 1.
  intros [| b | z | s | l | d];
    [exact Hnull | apply Hbool | apply Hint | apply Hstr | apply Hlist | apply Hdict].
  - induction l as [|x l IH]; constructor; [apply self | exact IH].
  - induction d as [|[k x] d IH]; constructor; [apply self | exact IH].
Qed.

Lemma encode_list (level : nat) (x : json) (xs : list json) :
  Json.encode level (JList (x :: xs)) =
    91%N :: Json.newline_indent (S level) ++ Json.encode (S level) x
      ++ encode_items (S level) xs ++ Json.newline_indent level ++ [93%N].
Proof. reflexivity. Qed.

Lemma encode_dict (level : nat) (member : str * json) (members : list (str * json)) :
  Json.encode level (JDict (member :: members)) =
    123%N :: Json.newline_indent (S level) ++ encode_member (S level) member
      ++ encode_members (S level) members ++ Json.newline_indent level ++ [125%N].
Proof. now destruct member. Qed.

Lemma value_start_facts (c : N) :
  value_start c ->
  Json.is_ws c = false /\ (c =? 93)%N = false /\ (c =? 125)%N = false /\ c <> 65279%N.
Proof.
  unfold value_start, Json.is_ws. intros Hc.
  repeat split; try lia;
    repeat match goal with
           | |- (_ || _) = false => apply orb_false_intro
           | |- (_ =? _)%N = false => apply N.eqb_neq; lia
           end.
Qed.

Lemma encode_start (level : nat) (v : json) :
  exists c r, Json.encode level v = c :: r /\ value_start c.
Proof.
  unfold value_start.
  destruct v as [| [] | z | s | [|x xs] | [|[k x] d]];
    try (eexists _, _; split; [reflexivity | lia]).
  cbn [Json.encode].
  pose proof (int_repr_start z []) as Hstart. rewrite app_nil_r in Hstart.
  inversion Hstart as [c r Hc Heq | c r Hc Heq];
    eexists _, _; (split; [reflexivity | lia]).
Qed.

Lemma skip_ws_indent (level : nat) (s : str) :
  Json.skip_ws (Json.newline_indent level ++ s) = Json.skip_ws s.
Proof.
  unfold Json.newline_indent. cbn [app Json.skip_ws]. change (Json.is_ws 10) with true.
  cbn iota. induction (2 * level)%nat as [|n IH]; [reflexivity|].
  cbn [repeat app Json.skip_ws]. change (Json.is_ws 32) with true. exact IH.
Qed.

Lemma skip_ws_encode (level : nat) (v : json) (rest : str) :
  Json.skip_ws (Json.encode level v ++ rest) = Json.encode level v ++ rest.
Proof.
  destruct (encode_start level v) as (c & r & -> & Hc).
  apply value_start_facts in Hc as (Hws & _). cbn [app Json.skip_ws]. now rewrite Hws.
Qed.

Lemma ends_term_items (level level' : nat) (xs : list json) (rest : str) :
  ends_term (encode_items level xs ++ Json.newline_indent level' ++ rest) = true.
Proof. destruct xs; reflexivity. Qed.

Lemma ends_term_members (level level' : nat) (members : list (str * json)) (rest : str) :
  ends_term (encode_members level members ++ Json.newline_indent level' ++ rest) = true.
Proof. destruct members as [|[k x] members]; reflexivity. Qed.

Lemma scan_value_string (fuel : nat) (r : str) :
  Json.scan_value (S fuel) (34%N :: r) = Json.scanned_map JStr (Json.scan_string r).
Proof. reflexivity. Qed.

Lemma scan_value_array (fuel : nat) (r : str) :
  Json.scan_value (S fuel) (91%N :: r) =
    match Json.skip_ws r with
    | c' :: r' =>
        if (c' =? 93)%N then Json.Scanned (JList []) r'
        else Json.scanned_map JList (Json.scan_items fuel (c' :: r'))
    | [] => Json.Failed Json.Malformed
    end.
Proof. reflexivity. Qed.

Lemma scan_value_object (fuel : nat) (r : str) :
  Json.scan_value (S fuel) (123%N :: r) =
    match Json.skip_ws r with
    | c' :: r' =>
        if (c' =? 125)%N then Json.Scanned (JDict []) r'
        else Json.scanned_map (fun kvs => JDict (Json.dict_of_pairs kvs))
               (Json.scan_members fuel (c' :: r'))
    | [] => Json.Failed Json.Malformed
    end.
Proof. reflexivity. Qed.

Lemma scan_items_step (fuel : nat) (inp : str) :
  Json.scan_items (S fuel) inp =
    match Json.scan_value fuel inp with
    | Json.Failed why => Json.Failed why
    | Json.Scanned v r =>
        match Json.skip_ws r with
        | c :: r' =>
            if (c =? 93)%N then Json.Scanned [v] r'
            else if (c =? 44)%N
                 then Json.scanned_map (cons v) (Json.scan_items fuel (Json.skip_ws r'))
                 else Json.Failed Json.Malformed
        | [] => Json.Failed Json.Malformed
        end
    end.
Proof. reflexivity. Qed.

Lemma scan_items_encoded (level level' : nat) (rest : str) (xs : list json) :
  forall (x : json) (fuel : nat),
    Forall read_back (x :: xs) ->
    (list_sum (map (fun x => S (size x)) (x :: xs)) <= fuel)%nat ->
    Json.scan_items fuel
      (Json.encode level x ++ encode_items level xs
         ++ Json.newline_indent level' ++ 93%N :: rest) =
      Json.Scanned (x :: xs) rest.
Proof.
  induction xs as [|y ys IH]; intros x fuel Hread Hfuel;
    inversion Hread as [|? ? Hx Hxs]; subst;
    cbn [map list_sum fold_right] in Hfuel;
    (destruct fuel as [|fuel]; [lia|]);
    rewrite scan_items_step, Hx by (first [lia | apply ends_term_items]).
  - cbn [encode_items flat_map app]. rewrite skip_ws_indent. reflexivity.
  - unfold encode_items at 1. cbn [flat_map app Json.skip_ws].
    change (Json.is_ws 44) with false. cbn iota.
    change (44 =? 93)%N with false. change (44 =? 44)%N with true. cbn iota.
    rewrite <- !app_assoc, skip_ws_indent, skip_ws_encode.
    fold (encode_items level ys).
    rewrite (IH y fuel Hxs) by (cbn [map list_sum fold_right]; lia). reflexivity.
Qed.

Lemma scan_members_step (fuel : nat) (r : str) :
  Json.scan_members (S fuel) (34%N :: r) =
    match Json.scan_string r with
    | Json.Failed why => Json.Failed why
    | Json.Scanned k r1 =>
        match Json.skip_ws r1 with
        | colon :: r2 =>
            if (colon =? 58)%N then
              match Json.scan_value fuel (Json.skip_ws r2) with
              | Json.Failed why => Json.Failed why
              | Json.Scanned v r3 =>
                  match Json.skip_ws r3 with
                  | c :: r4 =>
                      if (c =? 125)%N then Json.Scanned [(k, v)] r4
                      else if (c =? 44)%N
                           then Json.scanned_map (cons (k, v))
                                  (Json.scan_members fuel (Json.skip_ws r4))
                           else Json.Failed Json.Malformed
                  | [] => Json.Failed Json.Malformed
                  end
              end
            else Json.Failed Json.Malformed
        | [] => Json.Failed Json.Malformed
        end
    end.
Proof. reflexivity. Qed.

Lemma encode_member_app (level : nat) (k : str) (x : json) (tail : str) :
  encode_member level (k, x) ++ tail =
    34%N :: flat_map Json.escape_char k
      ++ 34%N :: 58%N :: 32%N :: Json.encode level x ++ tail.
Proof.
  unfold encode_member, Json.encode_string. cbn [app].
  now rewrite <- !app_assoc.
Qed.

Lemma skip_ws_space (s : str) : Json.skip_ws (32%N :: s) = Json.skip_ws s.
Proof. reflexivity. Qed.

Lemma skip_ws_member (level : nat) (member : str * json) (tail : str) :
  Json.skip_ws (encode_member level member ++ tail) = encode_member level member ++ tail.
Proof. destruct member as [k x]. now rewrite encode_member_app. Qed.

Lemma encode_members_cons (level : nat) (member : str * json)
    (members : list (str * json)) (tail : str) :
  encode_members level (member :: members) ++ tail =
    44%N :: Json.newline_indent level ++ encode_member level member
      ++ encode_members level members ++ tail.
Proof.
  destruct member as [k x]. unfold encode_members, encode_member. cbn [flat_map app].
  now rewrite <- !app_assoc.
Qed.

Lemma scan_members_encoded (level level' : nat) (rest : str)
    (members : list (str * json)) :
  forall (member : str * json) (fuel : nat),
    Forall member_read_back (member :: members) ->
    (list_sum (map (fun kv => match kv with (_, x) => S (size x) end) (member :: members))
     <= fuel)%nat ->
    Json.scan_members fuel
      (encode_member level member ++ encode_members level members
         ++ Json.newline_indent level' ++ 125%N :: rest) =
      Json.Scanned (member :: members) rest.
Proof.
  induction members as [|[k' y] members IH]; intros [k x] fuel Hread Hfuel;
    inversion Hread as [|? ? [Hkey Hx] Hmembers]; subst;
    cbn [fst snd map list_sum fold_right] in *;
    (destruct fuel as [|fuel]; [lia|]);
    rewrite encode_member_app, scan_members_step, (scan_string_text _ _ Hkey);
    cbn [Json.skip_ws]; change (Json.is_ws 58) with false; cbn iota;
    change (58 =? 58)%N with true; cbn iota;
    rewrite skip_ws_space, skip_ws_encode, Hx by (first [lia | apply ends_term_members]).
  - cbn [encode_members flat_map app]. rewrite skip_ws_indent. reflexivity.
  - rewrite encode_members_cons. cbn [Json.skip_ws].
    change (Json.is_ws 44) with false. cbn iota.
    change (44 =? 125)%N with false. change (44 =? 44)%N with true. cbn iota.
    rewrite skip_ws_indent, skip_ws_member.
    rewrite (IH (k', y) fuel Hmembers) by lia. reflexivity.
Qed.

(** *** Dictionaries with distinct keys *)

Lemma str_eqb_sym (a b : str) : Str.eqb a b = Str.eqb b a.
Proof.
  destruct (Str.eqb a b) eqn:Hab.
  - apply str_eqb_eq in Hab. subst. symmetry. apply str_eqb_refl.
  - destruct (Str.eqb b a) eqn:Hba; [|reflexivity].
    apply str_eqb_eq in Hba. subst. now rewrite str_eqb_refl in Hab.
Qed.

Lemma dict_set_fresh (k : str) (v : json) (d : list (str * json)) :
  existsb (Str.eqb k) (map fst d) = false -> Json.dict_set k v d = d ++ [(k, v)].
Proof.
  induction d as [|[k' v'] d IH]; [reflexivity|].
  cbn [map fst existsb Json.dict_set app].
  intros [Hk' Hd]%orb_false_elim. rewrite Hk', (IH Hd). reflexivity.
Qed.

Lemma distinct_middle (l1 l2 : list str) (k : str) :
  distinct (l1 ++ k :: l2) = true -> existsb (Str.eqb k) l1 = false.
Proof.
  induction l1 as [|k0 l1 IH]; [reflexivity|].
  cbn [app distinct existsb].
  intros [Hfresh Hrest]%andb_prop. apply negb_true_iff in Hfresh.
  rewrite existsb_app in Hfresh. apply orb_false_elim in Hfresh as [_ Hfresh].
  cbn [existsb] in Hfresh. apply orb_false_elim in Hfresh as [Hk _].
  rewrite str_eqb_sym, Hk. exact (IH Hrest).
Qed.

Lemma fold_dict_set (kvs acc : list (str * json)) :
  distinct (map fst (acc ++ kvs)) = true ->
  fold_left (fun d kv => Json.dict_set (fst kv) (snd kv) d) kvs acc = acc ++ kvs.
Proof.
  revert acc. induction kvs as [|[k v] kvs IH]; intros acc Hdistinct.
  - now rewrite app_nil_r.
  - cbn [fold_left fst snd].
    rewrite dict_set_fresh.
    + rewrite IH; rewrite <- app_assoc; [reflexivity | exact Hdistinct].
    + rewrite map_app in Hdistinct. exact (distinct_middle _ _ _ Hdistinct).
Qed.

Lemma dict_of_pairs_distinct (kvs : list (str * json)) :
  distinct (map fst kvs) = true -> Json.dict_of_pairs kvs = kvs.
Proof. intros Hdistinct. unfold Json.dict_of_pairs. now rewrite fold_dict_set. Qed.

(** *** Values *)

Lemma wf_items (l : list json) :
  forallb wf_value l = true ->
  Forall (fun v => wf_value v = true -> read_back v) l -> Forall read_back l.
Proof.
  induction l as [|x l IH]; intros Hwf Hall; [constructor|].
  cbn [forallb] in Hwf. apply andb_prop in Hwf as [Hx Hl].
  inversion Hall as [|? ? Hread Hrest]; subst.
  constructor; [now apply Hread | now apply IH].
Qed.

Lemma wf_members (d : list (str * json)) :
  forallb (fun kv => match kv with (k, x) => wf_text k && wf_value x end) d = true ->
  Forall (fun kv => wf_value (snd kv) = true -> read_back (snd kv)) d ->
  Forall member_read_back d.
Proof.
  induction d as [|[k x] d IH]; intros Hwf Hall; [constructor|].
  cbn [forallb] in Hwf. apply andb_prop in Hwf as [[Hk Hx]%andb_prop Hd].
  inversion Hall as [|? ? Hread Hrest]; subst.
  constructor; [split; [exact Hk | now apply Hread] | now apply IH].
Qed.

(** Every value that Python can hold is read back from its encoding. *)
Lemma read_back_all (v : json) : wf_value v = true -> read_back v.
Proof.
  induction v as [| b | z | s | l IH | d IH] using json_nested_ind;
    intros Hwf fuel level rest Hfuel Hrest;
    (destruct fuel as [|fuel]; [cbn [size] in Hfuel; lia|]).
  - reflexivity.
  - now destruct b.
  - now apply scan_value_int.
  - cbn [Json.encode wf_value] in *. unfold Json.encode_string. cbn [app].
    rewrite scan_value_string, <- app_assoc. cbn [app].
    now rewrite scan_string_text.
  - cbn [wf_value] in Hwf. pose proof (wf_items l Hwf IH) as Hread.
    destruct l as [|x xs]; [reflexivity|].
    rewrite encode_list. cbn [app]. rewrite scan_value_array.
    rewrite <- !app_assoc, skip_ws_indent, skip_ws_encode.
    destruct (encode_start (S level) x) as (c & r & Hencode & Hstart).
    apply value_start_facts in Hstart as (_ & Hclose & _).
    rewrite Hencode. cbn [app]. rewrite Hclose.
    change (c :: r ++ ?tail) with ((c :: r) ++ tail). rewrite <- Hencode.
    cbn [app]. rewrite scan_items_encoded; [reflexivity | exact Hread |].
    cbn [size] in Hfuel. lia.
  - cbn [wf_value] in Hwf. apply andb_prop in Hwf as [Hkeys Hwf].
    pose proof (wf_members d Hwf IH) as Hread.
    destruct d as [|member members]; [reflexivity|].
    rewrite encode_dict. cbn [app]. rewrite scan_value_object.
    rewrite <- !app_assoc, skip_ws_indent, skip_ws_member.
    assert (exists r, encode_member (S level) member = 34%N :: r) as [r Hencode].
    { destruct member as [k x]. eexists. reflexivity. }
    rewrite Hencode. cbn [app]. change (34 =? 125)%N with false. cbn iota.
    change (34%N :: r ++ ?tail) with ((34%N :: r) ++ tail). rewrite <- Hencode.
    cbn [app]. rewrite scan_members_encoded; [|exact Hread|].
    + cbn [Json.scanned_map]. now rewrite dict_of_pairs_distinct.
    + cbn [size] in Hfuel. lia.
Qed.

Lemma int_repr_nonempty (z : Z) : (1 <= length (Num.int_repr z))%nat.
Proof.
  pose proof (int_repr_start z []) as Hstart. rewrite app_nil_r in Hstart.
  inversion Hstart; cbn [length]; lia.
Qed.

Lemma length_newline_indent (level : nat) : (1 <= length (Json.newline_indent level))%nat.
Proof. unfold Json.newline_indent. cbn [length]. lia. Qed.

(** The encoding of a value is at least as long as the decoder nests calls
    to read it. *)
Lemma size_le_length (v : json) : forall level, (size v <= length (Json.encode level v))%nat.
Proof.
  induction v as [| b | z | s | l IH | d IH] using json_nested_ind; intros level.
  - cbn. lia.
  - destruct b; cbn; lia.
  - cbn [size Json.encode]. apply int_repr_nonempty.
  - cbn [size Json.encode]. unfold Json.encode_string. cbn [length]. lia.
  - destruct l as [|x xs]; [cbn; lia|].
    rewrite encode_list. cbn [size map list_sum fold_right length].
    rewrite !length_app. cbn [length].
    inversion IH as [|? ? Hx Hxs]; subst.
    pose proof (Hx (S level)) as Hx'.
    pose proof (length_newline_indent (S level)) as Hindent.
    assert (list_sum (map (fun x => S (size x)) xs) <= length (encode_items (S level) xs))%nat
      as Hitems.
    { clear -Hxs. induction xs as [|y ys IHys]; [cbn; lia|].
      inversion Hxs as [|? ? Hy Hys]; subst.
      unfold encode_items in *. cbn [map list_sum fold_right flat_map length].
      rewrite !length_app. cbn [length]. rewrite length_app.
      specialize (Hy (S level)). specialize (IHys Hys). unfold list_sum in IHys. lia. }
    unfold list_sum in Hitems. lia.
  - destruct d as [|[k x] members]; [cbn; lia|].
    rewrite encode_dict. cbn [size map list_sum fold_right length].
    rewrite !length_app. cbn [length].
    inversion IH as [|? ? Hx Hmembers]; subst. cbn [snd] in Hx.
    pose proof (Hx (S level)) as Hx'.
    assert (size x <= length (encode_member (S level) (k, x)))%nat as Hmember.
    { unfold encode_member. rewrite !length_app. lia. }
    assert (list_sum (map (fun kv => match kv with (_, x) => S (size x) end) members)
            <= length (encode_members (S level) members))%nat as Hrest.
    { clear -Hmembers. induction members as [|[k' y] members IHm]; [cbn; lia|].
      inversion Hmembers as [|? ? Hy Hys]; subst. cbn [snd] in Hy.
      unfold encode_members in *. cbn [map list_sum fold_right flat_map length].
      rewrite !length_app. cbn [length]. rewrite !length_app.
      specialize (Hy (S level)). specialize (IHm Hys). unfold list_sum in IHm. lia. }
    unfold list_sum in Hrest. lia.
Qed.

(** [json.loads(json.dumps(v, indent=2))] is [v]. *)
Lemma loads_dumps2 (v : json) : wf_value v = true -> Json.loads (Json.dumps2 v) = Json.Value v.
Proof.
  intros Hwf. unfold Json.loads, Json.dumps2.
  destruct (encode_start 0 v) as (c & r & Hencode & Hstart).
  apply value_start_facts in Hstart as (_ & _ & _ & Hbom).
  rewrite Hencode at 1. apply N.eqb_neq in Hbom. rewrite Hbom.
  rewrite <- (app_nil_r (Json.encode 0 v)) at 2.
  rewrite skip_ws_encode, (read_back_all v Hwf); [reflexivity| |reflexivity].
  pose proof (size_le_length v 0). lia.
Qed.

(** *** What the decoder builds *)

Lemma wf_text_cons (c : N) (s : str) :
  (c <= 1114111)%N -> Json.is_high_surrogate c && starts_low s = false ->
  wf_text s = true -> wf_text (c :: s) = true.
Proof.
  intros Hmax Hpair Hs. cbn [wf_text]. unfold starts_low in Hpair.
  rewrite Hs, Hpair, andb_true_r, andb_true_r. now apply N.leb_le.
Qed.

Lemma hex_value_bound (c n : N) : Json.hex_value c = Some n -> (n < 16)%N.
Proof.
  unfold Json.hex_value.
  destruct ((48 <=? c) && (c <=? 57))%N eqn:H1.
  { apply andb_prop in H1 as [Ha Hb]. apply N.leb_le in Ha, Hb. intros [= <-]. lia. }
  destruct ((97 <=? c) && (c <=? 102))%N eqn:H2.
  { apply andb_prop in H2 as [Ha Hb]. apply N.leb_le in Ha, Hb. intros [= <-]. lia. }
  destruct ((65 <=? c) && (c <=? 70))%N eqn:H3; [|discriminate].
  apply andb_prop in H3 as [Ha Hb]. apply N.leb_le in Ha, Hb. intros [= <-]. lia.
Qed.

Lemma hex4_value_bound (a b c d n : N) :
  Json.hex4_value a b c d = Some n -> (n < 65536)%N.
Proof.
  unfold Json.hex4_value.
  destruct (Json.hex_value a) as [x|] eqn:Ha; [|discriminate].
  destruct (Json.hex_value b) as [y|] eqn:Hb; [|discriminate].
  destruct (Json.hex_value c) as [z|] eqn:Hc; [|discriminate].
  destruct (Json.hex_value d) as [w|] eqn:Hd; [|discriminate].
  apply hex_value_bound in Ha, Hb, Hc, Hd. intros [= <-]. lia.
Qed.

Lemma simple_escape_ascii (e ch : N) : Json.simple_escape e = Some ch -> (ch < 128)%N.
Proof.
  unfold Json.simple_escape.
  repeat match goal with
         | |- (if ?b then _ else _) = _ -> _ => destruct b
         end; intros [= <-]; lia.
Qed.

Lemma join_surrogates_bound (hi lo : N) :
  Json.is_high_surrogate hi = true -> Json.is_low_surrogate lo = true ->
  (65536 <= Json.join_surrogates hi lo <= 1114111)%N.
Proof.
  unfold Json.is_high_surrogate, Json.is_low_surrogate, Json.join_surrogates.
  intros [H1 H2]%andb_prop [H3 H4]%andb_prop. apply N.leb_le in H1, H2, H3, H4. lia.
Qed.

Lemma not_low_below (c : N) : (c < 56320)%N -> Json.is_low_surrogate c = false.
Proof. intros Hc. unfold Json.is_low_surrogate. apply andb_false_intro1, N.leb_gt. lia. Qed.

Lemma not_low_above (c : N) : (57343 < c)%N -> Json.is_low_surrogate c = false.
Proof. intros Hc. unfold Json.is_low_surrogate. apply andb_false_intro2, N.leb_gt. lia. Qed.

Lemma not_high_below (c : N) : (c < 55296)%N -> Json.is_high_surrogate c = false.
Proof. intros Hc. unfold Json.is_high_surrogate. apply andb_false_intro1, N.leb_gt. lia. Qed.

Lemma not_high_above (c : N) : (56319 < c)%N -> Json.is_high_surrogate c = false.
Proof. intros Hc. unfold Json.is_high_surrogate. apply andb_false_intro2, N.leb_gt. lia. Qed.

Lemma scalar_facts (c : N) :
  scalar c = true ->
  (c <= 1114111)%N /\ Json.is_high_surrogate c = false /\ Json.is_low_surrogate c = false.
Proof.
  unfold scalar. intros [[Hmax Hhigh]%andb_prop Hlow]%andb_prop.
  apply N.leb_le in Hmax. apply negb_true_iff in Hhigh, Hlow. auto.
Qed.

Lemma clean_drop (k : nat) (t : str) : clean t = true -> clean (skipn k t) = true.
Proof.
  revert t. induction k as [|k IH]; intros [|c t] Hclean; cbn [skipn]; auto.
  apply IH. cbn [clean forallb] in Hclean. now apply andb_prop in Hclean as [_ Htail].
Qed.

Lemma clean_head (c : N) (t : str) : clean (c :: t) = true -> scalar c = true.
Proof. cbn [clean forallb]. now intros [Hc _]%andb_prop. Qed.

Lemma scanned_map_inv {A B : Type} (f : A -> B) (r : Json.scanned A) (b : B) (rest : str) :
  Json.scanned_map f r = Json.Scanned b rest ->
  exists a, r = Json.Scanned a rest /\ b = f a.
Proof. destruct r as [a rest'|]; [|discriminate]. intros [= <- <-]. now exists a. Qed.

Lemma cons_built (x : N) (inp tail s rest : str) :
  Json.scanned_map (cons x) (Json.scan_string tail) = Json.Scanned s rest ->
  (forall s' rest', Json.scan_string tail = Json.Scanned s' rest' -> built tail s' rest') ->
  (x <= 1114111)%N ->
  (Json.is_high_surrogate x = true -> low_escape_ahead tail = false) ->
  (low_escape_ahead inp = false -> Json.is_low_surrogate x = false) ->
  built inp s rest.
Proof.
  intros Hscan IH Hmax Hhigh Hlow.
  apply scanned_map_inv in Hscan as (s' & Hscan & ->).
  destruct (IH _ _ Hscan) as (Hwf & Hclean & Hstart).
  repeat split; [|exact Hclean|exact Hlow].
  apply wf_text_cons; [exact Hmax| |exact Hwf].
  destruct (Json.is_high_surrogate x); [|reflexivity].
  cbn [andb]. apply Hstart. now apply Hhigh.
Qed.

Lemma scan_string_built (n : nat) :
  forall inp s rest,
    (length inp <= n)%nat -> clean inp = true ->
    Json.scan_string inp = Json.Scanned s rest -> built inp s rest.
Proof.
  induction n as [|n IH]; intros [|c r] s rest Hlen Hclean Hscan;
    try discriminate; cbn [length] in Hlen; [lia|].
  cbn [Json.scan_string] in Hscan.
  destruct (c =? 34)%N eqn:Hquote.
  { injection Hscan as <- <-. repeat split. exact (clean_drop 1 _ Hclean). }
  destruct (c =? 92)%N eqn:Hback.
  - destruct r as [|e r1]; [discriminate|].
    destruct (e =? 117)%N eqn:Hu.
    + destruct r1 as [|h1 [|h2 [|h3 [|h4 r2]]]]; try discriminate.
      destruct (Json.hex4_value h1 h2 h3 h4) as [m|] eqn:Hhex; [|discriminate].
      pose proof (hex4_value_bound _ _ _ _ _ Hhex) as Hm.
      apply N.eqb_eq in Hback, Hu. subst c e.
      assert (forall s' rest', Json.scan_string r2 = Json.Scanned s' rest' ->
                               built r2 s' rest') as IH2.
      { intros s' rest'. apply IH; [cbn [length] in Hlen; lia|].
        exact (clean_drop 6 _ Hclean). }
      assert (low_escape_ahead (92 :: 117 :: h1 :: h2 :: h3 :: h4 :: r2)%N = false ->
              Json.is_low_surrogate m = false) as Hhead.
      { now rewrite (low_escape_ahead_hex m). }
      destruct r2 as [|x [|y [|g1 [|g2 [|g3 [|g4 r3]]]]]];
        try (apply (cons_built m _ _ _ _ Hscan IH2); [lia | reflexivity | exact Hhead]).
      destruct (Json.is_high_surrogate m) eqn:Hhigh; cbn [andb] in Hscan.
      * destruct (x =? 92)%N eqn:Hx; cbn [andb] in Hscan;
          [|apply (cons_built m _ _ _ _ Hscan IH2); [lia| |exact Hhead];
            intros _; now apply low_escape_ahead_first].
        destruct (y =? 117)%N eqn:Hy; cbn [andb] in Hscan;
          [|apply (cons_built m _ _ _ _ Hscan IH2); [lia| |exact Hhead];
            intros _; now apply low_escape_ahead_second].
        destruct (Json.hex4_value g1 g2 g3 g4) as [m2|] eqn:Hhex2; [|discriminate].
        apply N.eqb_eq in Hx, Hy. subst x y.
        destruct (Json.is_low_surrogate m2) eqn:Hlow2.
        -- pose proof (join_surrogates_bound _ _ Hhigh Hlow2) as Hjoin.
           apply (cons_built _ _ _ _ _ Hscan).
           ++ intros s' rest'. apply IH; [cbn [length] in Hlen; lia|].
              exact (clean_drop 12 _ Hclean).
           ++ lia.
           ++ intros Habsurd. rewrite not_high_above in Habsurd by lia. discriminate.
           ++ intros _. apply not_low_above. lia.
        -- apply (cons_built m _ _ _ _ Hscan IH2); [lia| |exact Hhead].
           intros _. now rewrite (low_escape_ahead_hex m2).
      * apply (cons_built m _ _ _ _ Hscan IH2); [lia| |exact Hhead].
        intros Habsurd. congruence.
    + destruct (Json.simple_escape e) as [ch|] eqn:Hsimple; [|discriminate].
      pose proof (simple_escape_ascii _ _ Hsimple) as Hascii.
      apply (cons_built ch _ _ _ _ Hscan).
      * intros s' rest'. apply IH; [cbn [length] in Hlen; lia|].
        exact (clean_drop 2 _ Hclean).
      * lia.
      * intros Habsurd. rewrite not_high_below in Habsurd by lia. discriminate.
      * intros _. apply not_low_below. lia.
  - destruct (c <? 32)%N; [discriminate|].
    destruct (scalar_facts _ (clean_head _ _ Hclean)) as (Hmax & Hhigh & Hlow).
    apply (cons_built c _ _ _ _ Hscan).
    + intros s' rest'. apply IH; [lia|]. exact (clean_drop 1 _ Hclean).
    + exact Hmax.
    + intros Habsurd. congruence.
    + intros _. exact Hlow.
Qed.

Lemma clean_tail (c : N) (t : str) : clean (c :: t) = true -> clean t = true.
Proof. exact (clean_drop 1 (c :: t)). Qed.

Lemma clean_skip_ws (t : str) : clean t = true -> clean (Json.skip_ws t) = true.
Proof.
  induction t as [|c t IH]; [reflexivity|]. intros Hclean.
  cbn [Json.skip_ws]. destruct (Json.is_ws c); [|exact Hclean].
  apply IH. exact (clean_tail _ _ Hclean).
Qed.

Lemma clean_strip_prefix (p t r : str) :
  Json.strip_prefix p t = Some r -> clean t = true -> clean r = true.
Proof.
  revert t. induction p as [|a p IH]; intros [|b t]; cbn [Json.strip_prefix];
    try discriminate; try (now intros [= <-]).
  destruct (a =? b)%N; [|discriminate].
  intros Hstrip Hclean. apply (IH _ Hstrip). exact (clean_tail _ _ Hclean).
Qed.

Lemma clean_take_digits (t : str) :
  clean t = true -> clean (snd (Json.take_digits t)) = true.
Proof.
  induction t as [|c t IH]; [reflexivity|]. intros Hclean.
  cbn [Json.take_digits]. destruct (Json.is_digit c); [|exact Hclean].
  cbn [snd]. apply IH. exact (clean_tail _ _ Hclean).
Qed.

Lemma scan_unsigned_built (negative : bool) (body : str) (v : json) (rest : str) :
  clean body = true -> Json.scan_unsigned negative body = Json.Scanned v rest ->
  wf_value v = true /\ clean rest = true.
Proof.
  intros Hclean. unfold Json.scan_unsigned.
  destruct body as [|c r]; [discriminate|].
  destruct (Json.is_digit c); [|discriminate].
  pose proof (clean_tail _ _ Hclean) as Hr.
  destruct (c =? 48)%N.
  - destruct (Json.float_follows r); [discriminate|]. now intros [= <- <-].
  - destruct (Json.float_follows _); [discriminate|]. intros [= <- <-].
    split; [reflexivity | now apply clean_take_digits].
Qed.

Lemma scan_number_built (inp : str) (v : json) (rest : str) :
  clean inp = true -> Json.scan_number inp = Json.Scanned v rest ->
  wf_value v = true /\ clean rest = true.
Proof.
  intros Hclean. unfold Json.scan_number. apply scan_unsigned_built.
  destruct inp as [|c r]; [reflexivity|].
  destruct (c =? 45)%N; [exact (clean_tail _ _ Hclean) | exact Hclean].
Qed.

Lemma scan_literal_built (inp : str) (v : json) (rest : str) :
  clean inp = true -> Json.scan_literal inp = Json.Scanned v rest ->
  wf_value v = true /\ clean rest = true.
Proof.
  intros Hclean. unfold Json.scan_literal.
  destruct (Json.strip_prefix Json.t_null inp) eqn:Hnull.
  { intros [= <- <-]. split; [reflexivity | exact (clean_strip_prefix _ _ _ Hnull Hclean)]. }
  destruct (Json.strip_prefix Json.t_true inp) eqn:Htrue.
  { intros [= <- <-]. split; [reflexivity | exact (clean_strip_prefix _ _ _ Htrue Hclean)]. }
  destruct (Json.strip_prefix Json.t_false inp) eqn:Hfalse.
  { intros [= <- <-]. split; [reflexivity | exact (clean_strip_prefix _ _ _ Hfalse Hclean)]. }
  destruct (Json.strip_prefix Json.t_NaN inp); [discriminate|].
  destruct (Json.strip_prefix Json.t_Infinity inp); [discriminate|].
  destruct (Json.strip_prefix (45%N :: Json.t_Infinity) inp); [discriminate|].
  now apply scan_number_built.
Qed.

(** *** Dictionaries built by assignment *)

Lemma dict_set_keys (a k : str) (v : json) (d : list (str * json)) :
  existsb (Str.eqb a) (map fst d) = false -> Str.eqb a k = false ->
  existsb (Str.eqb a) (map fst (Json.dict_set k v d)) = false.
Proof.
  intros Hd Hk. induction d as [|[k' v'] d IH].
  - cbn. now rewrite Hk.
  - cbn [map fst existsb] in Hd. apply orb_false_elim in Hd as [Hk' Hd].
    cbn [Json.dict_set]. destruct (Str.eqb k k');
      cbn [map fst existsb]; rewrite Hk'; cbn [orb]; [exact Hd | exact (IH Hd)].
Qed.

Lemma dict_set_distinct (k : str) (v : json) (d : list (str * json)) :
  distinct (map fst d) = true -> distinct (map fst (Json.dict_set k v d)) = true.
Proof.
  induction d as [|[k' v'] d IH]; [reflexivity|].
  cbn [map fst distinct]. intros [Hfresh Hd]%andb_prop.
  cbn [Json.dict_set]. destruct (Str.eqb k k') eqn:Hk; cbn [map fst distinct].
  - now rewrite Hfresh, Hd.
  - rewrite (IH Hd), andb_true_r. apply negb_true_iff.
    apply negb_true_iff in Hfresh. apply dict_set_keys; [exact Hfresh|].
    now rewrite str_eqb_sym.
Qed.

Lemma dict_set_built (k : str) (v : json) (d : list (str * json)) :
  wf_text k = true -> wf_value v = true ->
  forallb (fun kv => match kv with (k, x) => wf_text k && wf_value x end) d = true ->
  forallb (fun kv => match kv with (k, x) => wf_text k && wf_value x end)
    (Json.dict_set k v d) = true.
Proof.
  intros Hk Hv. induction d as [|[k' v'] d IH]; cbn [Json.dict_set forallb].
  - now rewrite Hk, Hv.
  - intros [[Hk' Hv']%andb_prop Hd]%andb_prop.
    destruct (Str.eqb k k'); cbn [forallb].
    + now rewrite Hk', Hv, Hd.
    + now rewrite Hk', Hv', (IH Hd).
Qed.

Lemma dict_of_pairs_built (kvs : list (str * json)) :
  forallb (fun kv => match kv with (k, x) => wf_text k && wf_value x end) kvs = true ->
  wf_value (JDict (Json.dict_of_pairs kvs)) = true.
Proof.
  unfold Json.dict_of_pairs.
  assert (wf_value (JDict []) = true) as Hacc by reflexivity.
  revert Hacc. generalize (@nil (str * json)) as acc.
  induction kvs as [|[k v] kvs IH]; intros acc Hacc Hkvs; [exact Hacc|].
  cbn [forallb] in Hkvs. apply andb_prop in Hkvs as [[Hk Hv]%andb_prop Hkvs].
  cbn [fold_left fst snd]. apply IH; [|exact Hkvs].
  cbn [wf_value] in *. apply andb_prop in Hacc as [Hdistinct Hall].
  now rewrite dict_set_distinct, dict_set_built.
Qed.

(** *** Terms *)

Lemma scan_built (fuel : nat) :
  (forall inp v rest,
      clean inp = true -> Json.scan_value fuel inp = Json.Scanned v rest ->
      wf_value v = true /\ clean rest = true)
  /\ (forall inp l rest,
         clean inp = true -> Json.scan_items fuel inp = Json.Scanned l rest ->
         forallb wf_value l = true /\ clean rest = true)
  /\ (forall inp kvs rest,
         clean inp = true -> Json.scan_members fuel inp = Json.Scanned kvs rest ->
         forallb (fun kv => match kv with (k, x) => wf_text k && wf_value x end) kvs = true
         /\ clean rest = true).
Proof.
  induction fuel as [|fuel (IHvalue & IHitems & IHmembers)];
    [repeat split; discriminate|].
  split; [|split].
  - intros [|c r] v rest Hclean; [discriminate|].
    cbn [Json.scan_value].
    pose proof (clean_skip_ws _ (clean_tail _ _ Hclean)) as Hr.
    destruct (c =? 34)%N.
    { intros (s & Hscan & ->)%scanned_map_inv.
      destruct (scan_string_built _ r s rest (le_n _) (clean_tail _ _ Hclean) Hscan)
        as (Hwf & Hrest & _).
      now split. }
    destruct (c =? 123)%N.
    { destruct (Json.skip_ws r) as [|c' r']; [discriminate|].
      destruct (c' =? 125)%N.
      - intros [= <- <-]. split; [reflexivity | exact (clean_tail _ _ Hr)].
      - intros (kvs & Hscan & ->)%scanned_map_inv.
        destruct (IHmembers _ _ _ Hr Hscan) as [Hkvs Hrest].
        split; [now apply dict_of_pairs_built | exact Hrest]. }
    destruct (c =? 91)%N.
    { destruct (Json.skip_ws r) as [|c' r']; [discriminate|].
      destruct (c' =? 93)%N.
      - intros [= <- <-]. split; [reflexivity | exact (clean_tail _ _ Hr)].
      - intros (l & Hscan & ->)%scanned_map_inv.
        exact (IHitems _ _ _ Hr Hscan). }
    now apply scan_literal_built.
  - intros inp l rest Hclean. cbn [Json.scan_items].
    destruct (Json.scan_value fuel inp) as [v r|] eqn:Hvalue; [|discriminate].
    destruct (IHvalue _ _ _ Hclean Hvalue) as [Hv Hr%clean_skip_ws].
    destruct (Json.skip_ws r) as [|c r']; [discriminate|].
    pose proof (clean_tail _ _ Hr) as Hr'.
    destruct (c =? 93)%N.
    { intros [= <- <-]. cbn [forallb]. now rewrite Hv. }
    destruct (c =? 44)%N; [|discriminate].
    intros (l' & Hscan & ->)%scanned_map_inv.
    destruct (IHitems _ _ _ (clean_skip_ws _ Hr') Hscan) as [Hl Hrest].
    cbn [forallb]. now rewrite Hv, Hl.
  - intros [|q r] kvs rest Hclean; [discriminate|]. cbn [Json.scan_members].
    destruct (q =? 34)%N; [|discriminate].
    destruct (Json.scan_string r) as [k r1|] eqn:Hkey; [|discriminate].
    destruct (scan_string_built _ r k r1 (le_n _) (clean_tail _ _ Hclean) Hkey)
      as (Hk & Hr1%clean_skip_ws & _).
    destruct (Json.skip_ws r1) as [|colon r2]; [discriminate|].
    destruct (colon =? 58)%N; [|discriminate].
    pose proof (clean_skip_ws _ (clean_tail _ _ Hr1)) as Hr2.
    destruct (Json.scan_value fuel (Json.skip_ws r2)) as [v r3|] eqn:Hvalue; [|discriminate].
    destruct (IHvalue _ _ _ Hr2 Hvalue) as [Hv Hr3%clean_skip_ws].
    destruct (Json.skip_ws r3) as [|c r4]; [discriminate|].
    pose proof (clean_tail _ _ Hr3) as Hr4.
    destruct (c =? 125)%N.
    { intros [= <- <-]. cbn [forallb]. now rewrite Hk, Hv. }
    destruct (c =? 44)%N; [|discriminate].
    intros (kvs' & Hscan & ->)%scanned_map_inv.
    destruct (IHmembers _ _ _ (clean_skip_ws _ Hr4) Hscan) as [Hkvs Hrest].
    cbn [forallb]. now rewrite Hk, Hv, Hkvs.
Qed.

(** Whatever [json.loads] makes of a clean text is fit to be written
    and read again. *)
Lemma loads_built (t : str) (v : json) :
  clean t = true -> Json.loads t = Json.Value v -> wf_value v = true.
Proof.
  intros Hclean. unfold Json.loads.
  destruct (match t with c :: _ => (c =? 65279)%N | [] => false end); [discriminate|].
  destruct (Json.scan_value _ _) as [x rest|] eqn:Hscan; [|discriminate].
  destruct (Json.skip_ws rest); [|discriminate]. intros [= <-].
  exact (proj1 (proj1 (scan_built _) _ _ _ (clean_skip_ws _ Hclean) Hscan)).
Qed.

(** A record that came out of [json.loads] goes through
    [json.dumps(_, indent=2)] and [json.loads] unchanged. *)
Lemma loads_dumps2_loads (t : str) (v : json) :
  clean t = true -> Json.loads t = Json.Value v ->
  Json.loads (Json.dumps2 v) = Json.Value v.
Proof. intros Hclean Hloads. apply loads_dumps2. exact (loads_built t v Hclean Hloads). Qed.

(** *** Files *)

Lemma json_dump_to_Ok (w : world) (name : str) (v : json) (st st' : state) (u : unit) :
  json_dump_to w name v st = (Ok u, st') ->
  files st' = <[name := Json.dumps2 v]> (files st).
Proof.
  unfold json_dump_to. destruct (writable w name); [|discriminate].
  now intros [= _ <-].
Qed.

Lemma reread_written (name : str) (v : json) (st : state) :
  wf_value v = true ->
  files st !! name = Some (Json.dumps2 v) -> reread name st = Some (Json.Value v).
Proof.
  intros Hwf Hfile. unfold reread. rewrite Hfile. cbn. now rewrite loads_dumps2.
Qed.

(** C7.  A record that is written to a file, as indented JSON, and read
    back from that file is the record again: for the file that
    [json.dump(_, f, indent=2)] writes, and so for the files that
    show_all_grok_responses.py and view_grok_responses.py save.  The
    condition on the record is the one that every value decoded by
    [json.loads] meets ([loads_built]). *)
Theorem persist_then_reread `{Runtime} (w : world) (name : str) (doc v : json)
    (st st1 st2 : state) :
  wf_value v = true ->
  writable w name = true ->
  ShowAll.save_record w doc v st = (Ok tt, st1) ->
  View.save_response w doc v st = (Ok tt, st2) ->
  reread name (snd (json_dump_to w name v st)) = Some (Json.Value v)
  /\ (exists saved, reread saved st1 = Some (Json.Value v))
  /\ (exists saved, reread saved st2 = Some (Json.Value v)).
Proof.
  intros Hwf Hwritable Hall Hview. split; [|split].
  - apply (reread_written _ _ _ Hwf). unfold json_dump_to. rewrite Hwritable.
    apply lookup_insert_eq.
  - unfold ShowAll.save_record in Hall. unbind Hall.
    apply print_Ok_inv in Hall. subst st1.
    match goal with
    | Hdump : json_dump_to _ ?saved _ _ = _ |- _ =>
        exists saved; apply (reread_written _ _ _ Hwf); cbn [say files];
        rewrite (json_dump_to_Ok _ _ _ _ _ _ Hdump); apply lookup_insert_eq
    end.
  - unfold View.save_response in Hview. unbind Hview.
    apply print_Ok_inv in Hview. subst st2.
    match goal with
    | Hdump : json_dump_to _ ?saved _ _ = _ |- _ =>
        exists saved; apply (reread_written _ _ _ Hwf); cbn [say files];
        rewrite (json_dump_to_Ok _ _ _ _ _ _ Hdump); apply lookup_insert_eq
    end.
Qed.

Lemma persist_then_reread_witness :
  wf_value Sample.full_record = true
  /\ writable Sample.offline «"latest_grok_response.json"» = true
  /\ reread «"latest_grok_response.json"»
        (snd (json_dump_to Sample.offline «"latest_grok_response.json"» Sample.full_record
                (Reference.start []))) =
     Some (Json.Value Sample.full_record)
  /\ (exists saved,
        reread saved
          (snd (@ShowAll.save_record Reference.runtime Sample.offline Sample.viewable
                  Sample.full_record (Reference.start []))) =
        Some (Json.Value Sample.full_record)).
Proof.
  assert (wf_value Sample.full_record = true) as Hwf by reflexivity.
  assert (writable Sample.offline «"latest_grok_response.json"» = true) as Hwritable
    by reflexivity.
  destruct (persist_then_reread (H := Reference.runtime) Sample.offline
              «"latest_grok_response.json"» Sample.viewable Sample.full_record
              (Reference.start [])
              (snd (@ShowAll.save_record Reference.runtime Sample.offline Sample.viewable
                      Sample.full_record (Reference.start [])))
              (snd (@View.save_response Reference.runtime Sample.offline Sample.viewable
                      Sample.full_record (Reference.start [])))
              Hwf Hwritable eq_refl eq_refl) as (Hfile & Hall & _).
  split; [exact Hwf|]. split; [exact Hwritable|]. split; [exact Hfile | exact Hall].
Defined.
